(** * Terrain3DData: the region-indexed terrain data store

    A shallow embedding of [src/terrain_3d_data.h] (Terrain3D, the
    [Terrain3DData] class): the 16x16 region map, the conversion of world
    positions to region locations, the typed pixel accessors layered over
    [get_pixel]/[set_pixel], and the running master height range.

    Numbers are modelled as the C++ code has them:
    - [int] / [int32_t] / [uint32_t] are [Z] with the two's complement
      wrap-around written out ([to_int32], [to_uint32]);
    - [real_t] is [float]: IEEE-754 binary32, modelled by the Standard
      Library's [spec_float] with precision 24 and maximal exponent 128. *)

From Stdlib Require Import ZArith Lia Bool List QArith Qround.
From Stdlib Require Import Floats.SpecFloat.
From stdpp Require Import base option list gmap.

Local Open Scope Z_scope.

(* ================================================================== *)
(** * Machine integers *)
(* ================================================================== *)

Definition INT32_MIN : Z := - 2 ^ 31.
Definition INT32_MAX : Z := 2 ^ 31 - 1.
Definition UINT32_MAX : Z := 2 ^ 32 - 1.

(** [int32_range z]: [z] is the value of some [int32_t]. *)
Definition int32_range (z : Z) : Prop := INT32_MIN <= z <= INT32_MAX.
Definition uint32_range (z : Z) : Prop := 0 <= z <= UINT32_MAX.

(** The result of an [int32_t] operation whose mathematical value is [z]
    (two's complement wrap-around). *)
Definition to_int32 (z : Z) : Z := (z + 2 ^ 31) mod 2 ^ 32 - 2 ^ 31.

(** The conversion [uint32_t(z)]. *)
Definition to_uint32 (z : Z) : Z := z mod 2 ^ 32.

(* ================================================================== *)
(** * Integer vectors *)
(* ================================================================== *)

Module Vector2i.
Record t : Type := mk { x : Z; y : Z }.

(** [operator+]: componentwise [int32_t] addition. *)
Definition add (a b : t) : t := mk (to_int32 (x a + x b)) (to_int32 (y a + y b)).

(** [operator/ (int)]: componentwise C++ integer division (truncating). *)
Definition div (a : t) (d : Z) : t := mk (to_int32 (x a ÷ d)) (to_int32 (y a ÷ d)).

(** [operator* (int)]. *)
Definition mul (a : t) (d : Z) : t := mk (to_int32 (x a * d)) (to_int32 (y a * d)).

Definition to_pair (a : t) : Z * Z := (x a, y a).
Definition of_pair (p : Z * Z) : t := mk (fst p) (snd p).
End Vector2i.

Abbreviation Vector2i := Vector2i.t.

#[global] Instance Vector2i_eq_dec : EqDecision Vector2i.
Proof. solve_decision. Defined.

#[global] Instance Vector2i_countable : Countable Vector2i.
Proof.
  apply (inj_countable' Vector2i.to_pair Vector2i.of_pair).
  intros [a b]. reflexivity.
Defined.

(* ================================================================== *)
(** * The region map index *)
(* ================================================================== *)

Definition REGION_MAP_SIZE : Z := 16.
Definition REGION_MAP_VSIZE : Vector2i := Vector2i.mk REGION_MAP_SIZE REGION_MAP_SIZE.

(** [Terrain3DData::get_region_map_index].  The bit test is the code's:
    [(uint32_t(loc.x | loc.y) & uint32_t(~0xF)) > 0]. *)
Definition get_region_map_index (p_region_loc : Vector2i) : Z :=
  let loc := Vector2i.add p_region_loc (Vector2i.div REGION_MAP_VSIZE 2) in
  if 0 <? Z.land (to_uint32 (Z.lor (Vector2i.x loc) (Vector2i.y loc)))
                 (to_uint32 (Z.lnot 0xF))
  then -1
  else to_int32 (Vector2i.y loc * REGION_MAP_SIZE + Vector2i.x loc).

(* ================================================================== *)
(** * real_t: IEEE-754 binary32 *)
(* ================================================================== *)

Abbreviation real_t := spec_float.

Module Real.
Definition prec : Z := 24.
Definition emax : Z := 128.

(** [x] is a binary32 value: its mantissa and exponent fit the format. *)
Definition valid (x : real_t) : bool := valid_binary prec emax x.

Definition zero : real_t := S754_zero false.
Definition one : real_t := S754_finite false 8388608 (-23).
Definition NaN : real_t := S754_nan.

Definition isnan (x : real_t) : bool :=
  match x with S754_nan => true | _ => false end.

Definition mul (a b : real_t) : real_t := SFmul prec emax a b.
Definition div (a b : real_t) : real_t := SFdiv prec emax a b.
Definition sub (a b : real_t) : real_t := SFsub prec emax a b.

(** The C++ comparisons [a < b], [a > b] and [a <= b]; all false on NaN. *)
Definition ltb (a b : real_t) : bool := SFltb a b.
Definition gtb (a b : real_t) : bool := SFltb b a.
Definition leb (a b : real_t) : bool := SFleb a b.

(** The conversion [real_t(n)] of an [int], rounding to nearest even. *)
Definition of_int (n : Z) : real_t := binary_normalize prec emax n 0 false.

(** The mathematical value of a finite number, [None] for NaN and the
    infinities. *)
Definition to_Q (x : real_t) : option Q :=
  match x with
  | S754_zero _ => Some (inject_Z 0)
  | S754_finite s m e =>
      let v := cond_Zopp s (Zpos m) in
      Some (if 0 <=? e then inject_Z (v * 2 ^ e)
            else Qmake v (Z.to_pos (2 ^ (- e))))
  | _ => None
  end.

(** The number with sign [s] whose value is the integer [n], for
    [|n| < 2^24]: the mantissa is aligned to [prec] bits, nothing is
    rounded. *)
Definition of_small_int (s : bool) (n : Z) : real_t :=
  match n with
  | Z0 => S754_zero s
  | Zpos p =>
      let '(m, e) := shl_align p 0 (Zpos (digits2_pos p) - prec) in
      S754_finite false m e
  | Zneg p =>
      let '(m, e) := shl_align p 0 (Zpos (digits2_pos p) - prec) in
      S754_finite true m e
  end.

(** [Math::floor]: the largest integral value not above [x], as a
    [real_t].  A number with a non-negative exponent is integral already;
    otherwise its magnitude is below [2^23] and the floor is produced
    exactly.  NaN, the infinities and the zeros are returned unchanged. *)
Definition floor (x : real_t) : real_t :=
  match x with
  | S754_finite s m e =>
      if 0 <=? e then x
      else of_small_int s (cond_Zopp s (Zpos m) / 2 ^ (- e))
  | _ => x
  end.

(** The C++ conversion of a [float] to [int32_t]: the fraction is
    discarded (truncation toward zero).  The conversion is undefined when
    the truncated value is not an [int32_t], which includes NaN and the
    infinities: [None]. *)
Definition to_int (x : real_t) : option Z :=
  match x with
  | S754_zero _ => Some 0
  | S754_finite s m e =>
      let t := cond_Zopp s (if 0 <=? e then Zpos m * 2 ^ e
                            else Zpos m / 2 ^ (- e)) in
      if (INT32_MIN <=? t) && (t <=? INT32_MAX) then Some t else None
  | _ => None
  end.
End Real.

(** Modelled from the spec: [as_float] and [as_uint], declared in a header
    that is not part of src/, reinterpret a 32-bit pattern as a binary32
    number and back (sign bit 31, exponent bits 30..23, fraction bits
    22..0).  [spec_float] has a single NaN, so every NaN pattern decodes to
    it and it encodes as the quiet NaN [0x7FC00000]. *)
Definition as_float (bits : Z) : real_t :=
  let s := Z.testbit bits 31 in
  let ex := Z.land (Z.shiftr bits 23) 0xFF in
  let man := Z.land bits 0x7FFFFF in
  if ex =? 0 then
    match man with
    | Zpos p => S754_finite s p (-149)
    | _ => S754_zero s
    end
  else if ex =? 255 then
    if man =? 0 then S754_infinity s else S754_nan
  else
    match man + 2 ^ 23 with
    | Zpos p => S754_finite s p (ex - 150)
    | _ => S754_nan
    end.

Definition sign_bit (s : bool) : Z := if s then 0x80000000 else 0.

Definition as_uint (x : real_t) : Z :=
  match x with
  | S754_zero s => sign_bit s
  | S754_infinity s => sign_bit s + 0x7F800000
  | S754_nan => 0x7FC00000
  | S754_finite s m e =>
      if Zpos m <? 2 ^ 23 then sign_bit s + Zpos m
      else sign_bit s + (e + 150) * 2 ^ 23 + (Zpos m - 2 ^ 23)
  end.

(* ================================================================== *)
(** * Real vectors and colors *)
(* ================================================================== *)

Module Vector2.
Record t : Type := mk { x : real_t; y : real_t }.

(** [operator/ (real_t)]. *)
Definition div (v : t) (d : real_t) : t := mk (Real.div (x v) d) (Real.div (y v) d).

(** [operator* (real_t)]. *)
Definition mul (v : t) (d : real_t) : t := mk (Real.mul (x v) d) (Real.mul (y v) d).

(** [operator- (Vector2)]. *)
Definition sub (v w : t) : t := mk (Real.sub (x v) (x w)) (Real.sub (y v) (y w)).

(** [Vector2::floor]. *)
Definition floor (v : t) : t := mk (Real.floor (x v)) (Real.floor (y v)).

(** The conversion [Vector2i(Vector2)]: each component is converted to
    [int32_t]. *)
Definition to_Vector2i (v : t) : option Vector2i :=
  xi ← Real.to_int (x v);
  yi ← Real.to_int (y v);
  Some (Vector2i.mk xi yi).
End Vector2.

Abbreviation Vector2 := Vector2.t.

Definition V2_ZERO : Vector2 := Vector2.mk Real.zero Real.zero.

Module Vector3.
Record t : Type := mk { x : real_t; y : real_t; z : real_t }.
End Vector3.

Abbreviation Vector3 := Vector3.t.

Module Color.
Record t : Type := mk { r : real_t; g : real_t; b : real_t; a : real_t }.

(** The assignment [clr.a = v] on a copy of [clr]. *)
Definition with_a (clr : t) (v : real_t) : t := mk (r clr) (g clr) (b clr) v.
End Color.

Abbreviation Color := Color.t.

(** The "no data" pixel. *)
Definition COLOR_NAN : Color := Color.mk Real.NaN Real.NaN Real.NaN Real.NaN.

(* ================================================================== *)
(** * The data store *)
(* ================================================================== *)

(** The three raster planes of a region. *)
Inductive MapType : Type := TYPE_HEIGHT | TYPE_CONTROL | TYPE_COLOR.

(** Modelled from the spec: [Image], the raster buffer of one region and
    one map type (a class of the host engine, not part of src/): a
    [width] x [height] grid holding one value per cell, row by row.  An
    elevation image holds one scalar per pixel; a control image holds one
    32-bit pattern per pixel, kept as the [real_t] with that pattern; a
    color image holds a 4-channel [Color] per pixel. *)
Record Image (A : Type) : Type := mkImage {
  img_width : Z;
  img_height : Z;
  img_data : list A
}.

Arguments mkImage {A} _ _ _.
Arguments img_width {A} _.
Arguments img_height {A} _.
Arguments img_data {A} _.

(** Modelled from the spec: [Terrain3DRegion] (terrain_3d_region.h is not
    part of src/): a tile has a location, a modified flag and a
    pending-deletion flag; its three raster buffers are the [Image]s
    shared with the map arrays of [Terrain3DData] below. *)
Record Terrain3DRegion : Type := mkRegion {
  region_location : Vector2i;
  region_modified : bool;
  region_deleted : bool
}.

Definition set_modified (r : Terrain3DRegion) (p_modified : bool) : Terrain3DRegion :=
  mkRegion (region_location r) p_modified (region_deleted r).

(** The members of [Terrain3DData].  [_terrain], [_edited_area] and the
    rendering handles of the generated textures play no part in the
    functions below; of each [GeneratedTexture] only its dirty flag is
    kept. *)
Record Terrain3DData : Type := mkData {
  _region_size : Z;
  _mesh_vertex_spacing : real_t;
  _master_height_range : Vector2;
  _regions : gmap Vector2i Terrain3DRegion;
  _region_locations : list Vector2i;
  _height_maps : list (Image real_t);
  _control_maps : list (Image real_t);
  _color_maps : list (Image Color);
  _region_map : list Z;
  _region_map_dirty : bool;
  _generated_height_maps_dirty : bool;
  _generated_control_maps_dirty : bool;
  _generated_color_maps_dirty : bool
}.

Definition with_master_height_range (st : Terrain3DData) (v : Vector2) : Terrain3DData :=
  mkData (_region_size st) (_mesh_vertex_spacing st) v (_regions st)
    (_region_locations st) (_height_maps st) (_control_maps st) (_color_maps st)
    (_region_map st) (_region_map_dirty st) (_generated_height_maps_dirty st)
    (_generated_control_maps_dirty st) (_generated_color_maps_dirty st).

Definition with_regions (st : Terrain3DData) (v : gmap Vector2i Terrain3DRegion) : Terrain3DData :=
  mkData (_region_size st) (_mesh_vertex_spacing st) (_master_height_range st) v
    (_region_locations st) (_height_maps st) (_control_maps st) (_color_maps st)
    (_region_map st) (_region_map_dirty st) (_generated_height_maps_dirty st)
    (_generated_control_maps_dirty st) (_generated_color_maps_dirty st).

(** The width, height and buffer length of an image. *)
Definition image_shape {A : Type} (map : Image A) : Z * Z * nat :=
  (img_width map, img_height map, length (img_data map)).

(** The shapes of the images of a map type, indexed by region id. *)
Definition get_map_shapes (st : Terrain3DData) (p_map_type : MapType)
  : list (Z * Z * nat) :=
  match p_map_type with
  | TYPE_HEIGHT => image_shape <$> _height_maps st
  | TYPE_CONTROL => image_shape <$> _control_maps st
  | TYPE_COLOR => image_shape <$> _color_maps st
  end.

(** Replace the image array of one map type and mark the generated
    texture of that map type dirty. *)
Definition with_height_maps (st : Terrain3DData) (v : list (Image real_t)) : Terrain3DData :=
  mkData (_region_size st) (_mesh_vertex_spacing st) (_master_height_range st)
    (_regions st) (_region_locations st) v (_control_maps st) (_color_maps st)
    (_region_map st) (_region_map_dirty st) true
    (_generated_control_maps_dirty st) (_generated_color_maps_dirty st).

Definition with_control_maps (st : Terrain3DData) (v : list (Image real_t)) : Terrain3DData :=
  mkData (_region_size st) (_mesh_vertex_spacing st) (_master_height_range st)
    (_regions st) (_region_locations st) (_height_maps st) v (_color_maps st)
    (_region_map st) (_region_map_dirty st) (_generated_height_maps_dirty st)
    true (_generated_color_maps_dirty st).

Definition with_color_maps (st : Terrain3DData) (v : list (Image Color)) : Terrain3DData :=
  mkData (_region_size st) (_mesh_vertex_spacing st) (_master_height_range st)
    (_regions st) (_region_locations st) (_height_maps st) (_control_maps st) v
    (_region_map st) (_region_map_dirty st) (_generated_height_maps_dirty st)
    (_generated_control_maps_dirty st) true.

(** ** Regions *)

(** [get_region_count]: the size of [_region_locations]. *)
Definition get_region_count (st : Terrain3DData) : Z :=
  Z.of_nat (length (_region_locations st)).

(** [get_regions_all]: the dictionary of every loaded region. *)
Definition get_regions_all (st : Terrain3DData) : gmap Vector2i Terrain3DRegion :=
  _regions st.

(** [Terrain3DData::get_region_location]:
    [Vector2i((descaled_position / (_mesh_vertex_spacing * real_t(_region_size))).floor())].
    [None] when the conversion to [Vector2i] is undefined. *)
Definition get_region_location (st : Terrain3DData) (p_global_position : Vector3) : option Vector2i :=
  let descaled_position :=
    Vector2.mk (Vector3.x p_global_position) (Vector3.z p_global_position) in
  Vector2.to_Vector2i
    (Vector2.floor
       (Vector2.div descaled_position
          (Real.mul (_mesh_vertex_spacing st) (Real.of_int (_region_size st))))).

(** [Terrain3DData::get_region_id].  Reading [_region_map] past its end
    is an error of the packed array: [None]. *)
Definition get_region_id (st : Terrain3DData) (p_region_loc : Vector2i) : option Z :=
  let map_index := get_region_map_index p_region_loc in
  if 0 <=? map_index then
    cell ← _region_map st !! Z.to_nat map_index;
    let region_id := to_int32 (cell - 1) in
    if (0 <=? region_id) && (region_id <? get_region_count st)
    then Some region_id
    else Some (-1)
  else Some (-1).

(** [Terrain3DData::get_region_idp]. *)
Definition get_region_idp (st : Terrain3DData) (p_global_position : Vector3) : option Z :=
  loc ← get_region_location st p_global_position;
  get_region_id st loc.

(** [has_region]. *)
Definition has_region (st : Terrain3DData) (p_region_loc : Vector2i) : option bool :=
  id ← get_region_id st p_region_loc;
  Some (negb (id =? -1)).

(** ** The master height range *)

(** [Terrain3DData::update_master_height]. *)
Definition update_master_height (st : Terrain3DData) (p_height : real_t) : Terrain3DData :=
  let range := _master_height_range st in
  if Real.ltb p_height (Vector2.x range) then
    with_master_height_range st (Vector2.mk p_height (Vector2.y range))
  else if Real.gtb p_height (Vector2.y range) then
    with_master_height_range st (Vector2.mk (Vector2.x range) p_height)
  else st.

(** [Terrain3DData::update_master_heights]. *)
Definition update_master_heights (st : Terrain3DData) (p_low_high : Vector2) : Terrain3DData :=
  let st1 :=
    if Real.ltb (Vector2.x p_low_high) (Vector2.x (_master_height_range st)) then
      with_master_height_range st
        (Vector2.mk (Vector2.x p_low_high) (Vector2.y (_master_height_range st)))
    else st in
  if Real.gtb (Vector2.y p_low_high) (Vector2.y (_master_height_range st1)) then
    with_master_height_range st1
      (Vector2.mk (Vector2.x (_master_height_range st1)) (Vector2.y p_low_high))
  else st1.

(** [get_height_range]. *)
Definition get_height_range (st : Terrain3DData) : Vector2 := _master_height_range st.

(** A call of one of the two range updates, and a sequence of them. *)
Inductive height_update : Type :=
  | UpdateHeight (p_height : real_t)
  | UpdateHeights (p_low_high : Vector2).

Definition apply_update (st : Terrain3DData) (u : height_update) : Terrain3DData :=
  match u with
  | UpdateHeight h => update_master_height st h
  | UpdateHeights lh => update_master_heights st lh
  end.

Definition apply_updates (st : Terrain3DData) (us : list height_update) : Terrain3DData :=
  fold_left apply_update us st.

(** The state a default-constructed [Terrain3DData] starts in: the
    member initialisers of the class. *)
Definition initial_data : Terrain3DData :=
  mkData 0 Real.one V2_ZERO ∅ [] [] [] [] [] true false false false.

(** ** Pixel access *)

(** Modelled from the spec: the coordinate transform of [get_pixel] and
    [set_pixel] (terrain_3d_data.cpp is not part of src/).  The world X/Z
    position divided by (vertex spacing x region size) and floored is the
    region location; the fractional remainder, scaled back up by the
    region size, is the pixel coordinate inside the region. *)
Definition coordinate_transform (st : Terrain3DData) (p_global_position : Vector3)
  : option (Vector2i * Vector2i) :=
  let descaled_position :=
    Vector2.mk (Vector3.x p_global_position) (Vector3.z p_global_position) in
  let q :=
    Vector2.div descaled_position
      (Real.mul (_mesh_vertex_spacing st) (Real.of_int (_region_size st))) in
  region_loc ← get_region_location st p_global_position;
  img_pos ← Vector2.to_Vector2i
              (Vector2.mul (Vector2.sub q (Vector2.floor q))
                 (Real.of_int (_region_size st)));
  Some (region_loc, img_pos).

(** Modelled from the spec: the resolution shared by [get_pixel] and
    [set_pixel]: the region location is looked up in the region map, the
    region id selects the image of the map type, and the pixel coordinate
    must lie inside that image.  The result is the region location, the
    region id and the offset of the pixel in the image; the inner [None]
    is a miss (no active region, or outside the image), the outer [None]
    an undefined conversion or array read. *)
Definition locate_pixel (st : Terrain3DData) (p_map_type : MapType)
    (p_global_position : Vector3) : option (option (Vector2i * nat * nat)) :=
  '(region_loc, img_pos) ← coordinate_transform st p_global_position;
  region_id ← get_region_id st region_loc;
  if region_id <? 0 then Some None
  else
    match get_map_shapes st p_map_type !! Z.to_nat region_id with
    | None => Some None
    | Some (width, height, size) =>
        let px := Vector2i.x img_pos in
        let py := Vector2i.y img_pos in
        if (0 <=? px) && (px <? width) && (0 <=? py) && (py <? height)
        then
          let k := Z.to_nat (py * width + px) in
          if (k <? size)%nat
          then Some (Some (region_loc, Z.to_nat region_id, k))
          else Some None
        else Some None
    end.

(** Modelled from the spec: writing one pixel of an image. *)
Definition image_set_pixel {A : Type} (k : nat) (v : A) (map : Image A) : Image A :=
  mkImage (img_width map) (img_height map) (<[k := v]> (img_data map)).

(** Modelled from the spec: the pixel read from a one-scalar image.  The
    stored scalar is the first channel; the channels such an image does
    not store read as 0, 0 and 1, the values [set_height] and
    [set_control] pass for them. *)
Definition scalar_pixel (v : real_t) : Color :=
  Color.mk v Real.zero Real.zero Real.one.


(** Modelled from the spec: reading and writing pixel [k] of the image of
    region [region_id]. *)
Definition read_pixel (st : Terrain3DData) (p_map_type : MapType)
    (region_id k : nat) : option Color :=
  match p_map_type with
  | TYPE_HEIGHT =>
      map ← _height_maps st !! region_id; scalar_pixel <$> img_data map !! k
  | TYPE_CONTROL =>
      map ← _control_maps st !! region_id; scalar_pixel <$> img_data map !! k
  | TYPE_COLOR =>
      map ← _color_maps st !! region_id; img_data map !! k
  end.

Definition write_pixel (st : Terrain3DData) (p_map_type : MapType)
    (region_id k : nat) (p_pixel : Color) : Terrain3DData :=
  match p_map_type with
  | TYPE_HEIGHT =>
      with_height_maps st
        (alter (image_set_pixel k (Color.r p_pixel)) region_id (_height_maps st))
  | TYPE_CONTROL =>
      with_control_maps st
        (alter (image_set_pixel k (Color.r p_pixel)) region_id (_control_maps st))
  | TYPE_COLOR =>
      with_color_maps st
        (alter (image_set_pixel k p_pixel) region_id (_color_maps st))
  end.

(** Modelled from the spec: [get_pixel] returns the "no data" pixel when
    no active region covers the position or the position is outside the
    image, and the stored pixel otherwise. *)
Definition get_pixel (st : Terrain3DData) (p_map_type : MapType)
    (p_global_position : Vector3) : option Color :=
  target ← locate_pixel st p_map_type p_global_position;
  match target with
  | None => Some COLOR_NAN
  | Some (_, region_id, k) =>
      Some (default COLOR_NAN (read_pixel st p_map_type region_id k))
  end.

(** Modelled from the spec: [set_pixel] uses the same resolution and does
    nothing on a miss.  A successful write stores the pixel, marks the
    generated texture of the map type dirty, marks the owning region
    modified, and on a height write updates the master height range. *)
Definition set_pixel (st : Terrain3DData) (p_map_type : MapType)
    (p_global_position : Vector3) (p_pixel : Color) : option Terrain3DData :=
  target ← locate_pixel st p_map_type p_global_position;
  match target with
  | None => Some st
  | Some (region_loc, region_id, k) =>
      let st1 := write_pixel st p_map_type region_id k p_pixel in
      let st2 :=
        with_regions st1
          (alter (fun r => set_modified r true) region_loc (_regions st1)) in
      Some (match p_map_type with
            | TYPE_HEIGHT => update_master_height st2 (Color.r p_pixel)
            | _ => st2
            end)
  end.


(** ** Typed accessors (inline map functions of the header) *)

(** [Terrain3DData::get_roughness]. *)
Definition get_roughness (st : Terrain3DData) (p_global_position : Vector3) : option real_t :=
  clr ← get_pixel st TYPE_COLOR p_global_position;
  Some (Color.a clr).



(** [Terrain3DData::get_color]. *)
Definition get_color (st : Terrain3DData) (p_global_position : Vector3) : option Color :=
  clr ← get_pixel st TYPE_COLOR p_global_position;
  Some (Color.with_a clr Real.one).

(** [Terrain3DData::set_control]. *)
Definition set_control (st : Terrain3DData) (p_global_position : Vector3)
    (p_control : Z) : option Terrain3DData :=
  set_pixel st TYPE_CONTROL p_global_position
    (Color.mk (as_float p_control) Real.zero Real.zero Real.one).

(** [Terrain3DData::get_control]. *)
Definition get_control (st : Terrain3DData) (p_global_position : Vector3) : option Z :=
  clr ← get_pixel st TYPE_CONTROL p_global_position;
  let val := Color.r clr in
  Some (if Real.isnan val then UINT32_MAX else as_uint val).

(** [Terrain3DData::set_roughness]. *)
Definition set_roughness (st : Terrain3DData) (p_global_position : Vector3)
    (p_roughness : real_t) : option Terrain3DData :=
  clr ← get_pixel st TYPE_COLOR p_global_position;
  set_pixel st TYPE_COLOR p_global_position (Color.with_a clr p_roughness).

(* ================================================================== *)
(** * Predicates used in the statements *)
(* ================================================================== *)

(** ** Representation invariants of the C++ types *)

(** The components of a [Vector2i] are [int32_t] values. *)
Definition Vector2i_valid (v : Vector2i) : Prop :=
  int32_range (Vector2i.x v) /\ int32_range (Vector2i.y v).

(** The members hold values of their C++ types: [_region_map] is the
    16 x 16 grid of [int32_t] cells ([REGION_MAP_SIZE * REGION_MAP_SIZE]
    entries), and the number of active regions is an [int]. *)
Definition Terrain3DData_valid (st : Terrain3DData) : Prop :=
  length (_region_map st) = Z.to_nat (REGION_MAP_SIZE * REGION_MAP_SIZE) /\
  Forall int32_range (_region_map st) /\
  int32_range (get_region_count st).

#[global] Instance int32_range_dec (z : Z) : Decision (int32_range z).
Proof. unfold int32_range. apply _. Defined.

(** ** The raster store *)



(** ** The order of binary32 numbers

    A number that is not NaN is ranked by a triple compared
    lexicographically: its class (negative infinity, negative, zero,
    positive, positive infinity), then exponent and mantissa, both
    negated for negative numbers. *)

Definition rank (x : real_t) : Z * Z * Z :=
  match x with
  | S754_infinity true => (-2, 0, 0)
  | S754_finite true m e => (-1, - e, - Zpos m)
  | S754_zero _ => (0, 0, 0)
  | S754_nan => (0, 0, 0)
  | S754_finite false m e => (1, e, Zpos m)
  | S754_infinity false => (2, 0, 0)
  end.

Definition lex_lt (p q : Z * Z * Z) : Prop :=
  let '(p1, p2, p3) := p in
  let '(q1, q2, q3) := q in
  p1 < q1 \/ (p1 = q1 /\ (p2 < q2 \/ (p2 = q2 /\ p3 < q3))).

Definition lex_le (p q : Z * Z * Z) : Prop :=
  let '(p1, p2, p3) := p in
  let '(q1, q2, q3) := q in
  p1 < q1 \/ (p1 = q1 /\ (p2 < q2 \/ (p2 = q2 /\ p3 <= q3))).

(** ** Height ranges *)

(** The range [v] contains [h]: [v.x <= h <= v.y]. *)
Definition range_contains (v : Vector2) (h : real_t) : Prop :=
  Real.leb (Vector2.x v) h = true /\ Real.leb h (Vector2.y v) = true.

(** Neither bound of the range is NaN. *)
Definition range_numeric (v : Vector2) : Prop :=
  Real.isnan (Vector2.x v) = false /\ Real.isnan (Vector2.y v) = false.

(** The range [w] is at least as wide as [v]: [w.x <= v.x] and
    [v.y <= w.y]. *)
Definition range_within (v w : Vector2) : Prop :=
  Real.leb (Vector2.x w) (Vector2.x v) = true /\
  Real.leb (Vector2.y v) (Vector2.y w) = true.

(** The states the master height range can be in: it starts at
    [V2_ZERO] and is changed by the two update functions, called directly
    or through a pixel write. *)
Inductive height_range_reachable : Terrain3DData -> Prop :=
  | reachable_zero (st : Terrain3DData) :
      _master_height_range st = V2_ZERO -> height_range_reachable st
  | reachable_update (st : Terrain3DData) (u : height_update) :
      height_range_reachable st -> height_range_reachable (apply_update st u)
  | reachable_set_pixel (st st' : Terrain3DData) (t : MapType) (p : Vector3) (v : Color) :
      height_range_reachable st -> set_pixel st t p v = Some st' ->
      height_range_reachable st'.

(* ================================================================== *)
(** * Concrete terrains and inputs *)
(* ================================================================== *)

(** Some binary32 numbers: 1, 3, 5, 12.5, 70, 2^40 and -2^-149, the
    negative number closest to zero. *)
Definition real_1 : real_t := Real.one.
Definition real_3 : real_t := S754_finite false 12582912 (-22).
Definition real_5 : real_t := S754_finite false 10485760 (-21).
Definition real_12_5 : real_t := S754_finite false 13107200 (-20).
Definition real_70 : real_t := S754_finite false 9175040 (-17).
Definition real_2_40 : real_t := S754_finite false 8388608 17.
Definition real_tiny_negative : real_t := S754_finite true 1 (-149).

(** The scenario of the specification: region size 64, vertex spacing
    1.0, and one active region at location (1,0), whose three images are
    64 x 64.  World position (70, 0, 5) lies in that region. *)

Definition blank_pixel : Color := Color.mk Real.zero Real.zero Real.zero Real.one.

Definition blank_image : Image Color := mkImage 64 64 (replicate 4096 blank_pixel).

Definition blank_scalar_image : Image real_t :=
  mkImage 64 64 (replicate 4096 Real.zero).

Definition scenario_data : Terrain3DData :=
  mkData 64 Real.one V2_ZERO
    {[ Vector2i.mk 1 0 := mkRegion (Vector2i.mk 1 0) false false ]}
    [Vector2i.mk 1 0] [blank_scalar_image] [blank_scalar_image] [blank_image]
    (<[137%nat := 1]> (replicate 256 0)) false false false false.

Definition scenario_position : Vector3 := Vector3.mk real_70 Real.zero real_5.

(** The same terrain with a second region, at (0,0), that is marked for
    deletion: it is still in [_regions] but no longer active. *)
Definition scenario_pending : Terrain3DData :=
  with_regions scenario_data
    (<[ Vector2i.mk 0 0 := mkRegion (Vector2i.mk 0 0) true true ]>
       (_regions scenario_data)).

(** The same terrain after roughness 12.5 was written at the scenario
    position. *)
Definition scenario_rough : Terrain3DData :=
  default scenario_data (set_roughness scenario_data scenario_position real_12_5).

(** World positions outside the active region: the origin, x = -2^-149
    and x = 2^40. *)
Definition origin_position : Vector3 := Vector3.mk Real.zero Real.zero Real.zero.

Definition tiny_negative_position : Vector3 :=
  Vector3.mk real_tiny_negative Real.zero Real.zero.

Definition far_position : Vector3 := Vector3.mk real_2_40 Real.zero Real.zero.

(** Two states whose height range is not an ordered pair of numbers:
    (5,1) and (NaN,NaN). *)
Definition inverted_data : Terrain3DData :=
  with_master_height_range initial_data (Vector2.mk real_5 real_1).

Definition nan_data : Terrain3DData :=
  with_master_height_range initial_data (Vector2.mk Real.NaN Real.NaN).





(* ================================================================== *)
(** * Further functions of the header and their inputs *)
(* ================================================================== *)

(** [has_regionp]. *)
Definition has_regionp (st : Terrain3DData) (p_global_position : Vector3) : option bool :=
  id ← get_region_idp st p_global_position;
  Some (negb (id =? -1)).

(** The valid region locations, as the comment of [get_region_map_index]
    gives them: (-8,-8) to (7,7). *)
Definition in_region_map (loc : Vector2i) : Prop :=
  -8 <= Vector2i.x loc <= 7 /\ -8 <= Vector2i.y loc <= 7.

(** The concrete terrain with a second active region, at (-8,7), whose
    id 1 is stored as 2 in cell 240 of the region map. *)
Definition scenario_two_regions : Terrain3DData :=
  mkData 64 Real.one V2_ZERO (_regions scenario_data)
    [Vector2i.mk 1 0; Vector2i.mk (-8) 7]
    [blank_scalar_image; blank_scalar_image] [blank_scalar_image; blank_scalar_image]
    [blank_image; blank_image]
    (<[240%nat := 2]> (_region_map scenario_data)) false false false false.

(** The same two active regions before the second one is entered in the
    region map. *)
Definition scenario_unmapped : Terrain3DData :=
  mkData 64 Real.one V2_ZERO (_regions scenario_data)
    [Vector2i.mk 1 0; Vector2i.mk (-8) 7]
    [blank_scalar_image; blank_scalar_image] [blank_scalar_image; blank_scalar_image]
    [blank_image; blank_image]
    (_region_map scenario_data) false false false false.

(** The terrain with two mapped regions after the second one left the
    active list: its cell of the region map still holds 2. *)
Definition scenario_pending_shrunk : Terrain3DData :=
  mkData 64 Real.one V2_ZERO (_regions scenario_data)
    [Vector2i.mk 1 0] [blank_scalar_image] [blank_scalar_image] [blank_image]
    (_region_map scenario_two_regions) false false false false.

(** A 32-bit pattern whose bits 30..23 are all ones and whose bits 22..0
    are not all zero: the patterns that are NaN as a binary32 number. *)
Definition nan_pattern (c : Z) : Prop :=
  (c / 2 ^ 23) mod 2 ^ 8 = 255 /\ c mod 2 ^ 23 <> 0.

(** The concrete terrain after the control value 0x7FFFFFFF was written
    at the scenario position. *)
Definition scenario_control : Terrain3DData :=
  default scenario_data (set_control scenario_data scenario_position 0x7FFFFFFF).






(* ================================================================== *)
(** * Machine integers and the bit test *)
(* ================================================================== *)

(** The named numbers are the binary32 numbers they are named after. *)
Lemma real_constants :
  Real.of_int 1 = real_1 /\ Real.of_int 3 = real_3 /\ Real.of_int 5 = real_5 /\
  Real.div (Real.of_int 25) (Real.of_int 2) = real_12_5 /\
  Real.of_int 70 = real_70 /\ Real.of_int (2 ^ 40) = real_2_40 /\
  as_float 0x80000001 = real_tiny_negative /\
  forallb Real.valid
    [real_1; real_3; real_5; real_12_5; real_70; real_2_40; real_tiny_negative] = true.
Proof. repeat split; vm_compute; reflexivity. Qed.

Lemma to_uint32_range z : 0 <= to_uint32 z < 2 ^ 32.
Proof. unfold to_uint32. apply Z.mod_pos_bound. lia. Qed.

Lemma to_int32_id z : int32_range z -> to_int32 z = z.
Proof.
  unfold int32_range, INT32_MIN, INT32_MAX, to_int32. intros H.
  rewrite Z.mod_small; lia.
Qed.

Lemma to_int32_range z : int32_range (to_int32 z).
Proof.
  unfold int32_range, INT32_MIN, INT32_MAX, to_int32.
  pose proof (Z.mod_pos_bound (z + 2 ^ 31) (2 ^ 32)). lia.
Qed.

(** Masking with [~0xF] clears the low four bits of a 32-bit value. *)
Lemma land_high_mask a :
  0 <= a < 2 ^ 32 -> Z.land a (to_uint32 (Z.lnot 0xF)) = a / 16 * 16.
Proof.
  intros Ha.
  replace (to_uint32 (Z.lnot 0xF)) with (Z.land (Z.lnot (Z.ones 4)) (Z.ones 32))
    by reflexivity.
  rewrite Z.land_assoc, <- Z.ldiff_land, Z.land_ones by lia.
  rewrite Z.ldiff_ones_r by lia.
  rewrite Z.shiftl_mul_pow2, Z.shiftr_div_pow2 by lia.
  change (2 ^ 4) with 16.
  apply Z.mod_small.
  pose proof (Z.mul_div_le a 16). pose proof (Z.div_pos a 16). lia.
Qed.

Lemma mask_test a :
  0 <= a < 2 ^ 32 -> (Z.land a (to_uint32 (Z.lnot 0xF)) = 0 <-> a < 16).
Proof.
  intros Ha. rewrite land_high_mask by assumption.
  split; intros H.
  - assert (a / 16 = 0) as Hq by lia.
    apply Z.div_small_iff in Hq; lia.
  - rewrite Z.div_small; lia.
Qed.

Lemma lor_small u v :
  0 <= u -> 0 <= v -> (Z.lor u v < 16 <-> u < 16 /\ v < 16).
Proof.
  intros Hu Hv.
  assert (forall w, 0 <= w -> (w < 16 <-> Z.shiftr w 4 = 0)) as Hs.
  { intros w Hw. rewrite Z.shiftr_div_pow2 by lia. change (2 ^ 4) with 16.
    split; intros H.
    - apply Z.div_small; lia.
    - apply Z.div_small_iff in H; lia. }
  assert (0 <= Z.lor u v) as Huv by (apply Z.lor_nonneg; lia).
  rewrite (Hs _ Huv), (Hs _ Hu), (Hs _ Hv), Z.shiftr_lor.
  apply Z.lor_eq_0_iff.
Qed.

Lemma to_uint32_lor a b :
  to_uint32 (Z.lor a b) = Z.lor (to_uint32 a) (to_uint32 b).
Proof.
  unfold to_uint32. rewrite <- !Z.land_ones by lia.
  apply Z.land_lor_distr_l.
Qed.

Lemma to_uint32_small_iff a :
  int32_range a -> (to_uint32 a < 16 <-> 0 <= a < 16).
Proof.
  unfold int32_range, INT32_MIN, INT32_MAX, to_uint32. intros Ha.
  destruct (Z_lt_le_dec a 0) as [Hneg | Hpos].
  - replace (a mod 2 ^ 32) with (a + 2 ^ 32); [lia |].
    apply (Z.mod_unique _ _ (-1)); lia.
  - rewrite Z.mod_small; lia.
Qed.

(** The single bit test accepts exactly the offsets with both axes in [0,16). *)
Lemma region_map_bit_test lx ly :
  int32_range lx -> int32_range ly ->
  ((0 <? Z.land (to_uint32 (Z.lor lx ly)) (to_uint32 (Z.lnot 0xF))) = false
   <-> (0 <= lx < 16 /\ 0 <= ly < 16)).
Proof.
  intros Hx Hy.
  pose proof (to_uint32_range (Z.lor lx ly)) as Hr.
  pose proof (to_uint32_range lx) as Hrx.
  pose proof (to_uint32_range ly) as Hry.
  rewrite Z.ltb_ge.
  assert (0 <= Z.land (to_uint32 (Z.lor lx ly)) (to_uint32 (Z.lnot 0xF))) as Hnn.
  { apply Z.land_nonneg. left. lia. }
  transitivity (Z.land (to_uint32 (Z.lor lx ly)) (to_uint32 (Z.lnot 0xF)) = 0);
    [lia |].
  rewrite (mask_test _ Hr), to_uint32_lor, lor_small by lia.
  rewrite (to_uint32_small_iff _ Hx), (to_uint32_small_iff _ Hy). tauto.
Qed.

(* ================================================================== *)
(** * The region map index and the region id *)
(* ================================================================== *)

(** Offsetting an [int32_t] coordinate by 8 lands in [0,16) exactly when
    the mathematical sum does, wrap-around included. *)
Lemma offset_in_grid x :
  int32_range x ->
  int32_range (to_int32 (x + 8)) /\
  (0 <= to_int32 (x + 8) < 16 <-> 0 <= x + 8 < 16) /\
  (0 <= x + 8 < 16 -> to_int32 (x + 8) = x + 8).
Proof.
  intros Hx. split; [apply to_int32_range |].
  revert Hx. unfold int32_range, INT32_MIN, INT32_MAX, to_int32. intros Hx.
  destruct (Z_le_gt_dec (x + 8) (2 ^ 31 - 1)) as [Hle | Hgt].
  - rewrite Z.mod_small by lia. lia.
  - replace ((x + 8 + 2 ^ 31) mod 2 ^ 32) with (x + 8 + 2 ^ 31 - 2 ^ 32).
    + lia.
    + apply (Z.mod_unique _ _ 1); lia.
Qed.

(** What [get_region_map_index] computes, for every location. *)
Lemma get_region_map_index_spec x y :
  int32_range x -> int32_range y ->
  (0 <= x + 8 < 16 /\ 0 <= y + 8 < 16 ->
   get_region_map_index (Vector2i.mk x y) = (y + 8) * 16 + (x + 8)) /\
  (~ (0 <= x + 8 < 16 /\ 0 <= y + 8 < 16) ->
   get_region_map_index (Vector2i.mk x y) = -1).
Proof.
  intros Hx Hy.
  destruct (offset_in_grid x Hx) as (Hrx & Hix & Hex).
  destruct (offset_in_grid y Hy) as (Hry & Hiy & Hey).
  unfold get_region_map_index, Vector2i.add, Vector2i.div, REGION_MAP_VSIZE,
    REGION_MAP_SIZE. cbn [Vector2i.x Vector2i.y].
  change (to_int32 (16 ÷ 2)) with 8.
  pose proof (region_map_bit_test _ _ Hrx Hry) as Htest.
  destruct (0 <? Z.land (to_uint32 (Z.lor (to_int32 (x + 8)) (to_int32 (y + 8))))
                    (to_uint32 (Z.lnot 0xF))) eqn:E.
  - split; [| reflexivity].
    intros Hin. exfalso.
    assert (true = false) as Habs by (apply Htest; lia). discriminate.
  - split; [| intros Hout; exfalso; apply Hout; destruct Htest as [Ht _];
               specialize (Ht eq_refl); lia].
    intros [Hbx Hby]. rewrite (Hex Hbx), (Hey Hby).
    apply to_int32_id. unfold int32_range, INT32_MIN, INT32_MAX. lia.
Qed.

(** C2: [get_region_map_index] returns -1 exactly when, after offsetting
    both axes by 8, an offset coordinate falls outside [0,16); otherwise
    it returns [offset.y * 16 + offset.x], an index in [0,256).  Location
    (8,8) is rejected and location (7,7) is accepted. *)
Theorem get_region_map_index_correct (x y : Z) :
  int32_range x -> int32_range y ->
  (get_region_map_index (Vector2i.mk x y) = -1
   <-> ~ (0 <= x + 8 < 16 /\ 0 <= y + 8 < 16)) /\
  (0 <= x + 8 < 16 /\ 0 <= y + 8 < 16 ->
   get_region_map_index (Vector2i.mk x y) = (y + 8) * REGION_MAP_SIZE + (x + 8) /\
   0 <= get_region_map_index (Vector2i.mk x y) < 256) /\
  get_region_map_index (Vector2i.mk 8 8) = -1 /\
  get_region_map_index (Vector2i.mk 7 7) = 255.
Proof.
  intros Hx Hy.
  destruct (get_region_map_index_spec x y Hx Hy) as [Hin Hout].
  unfold REGION_MAP_SIZE.
  repeat split; try reflexivity.
  - intros Hm Hb. rewrite (Hin Hb) in Hm. lia.
  - exact Hout.
  - apply Hin; assumption.
  - rewrite Hin by assumption. lia.
  - rewrite Hin by assumption. lia.
Qed.

Lemma get_region_map_index_correct_witness :
  (get_region_map_index (Vector2i.mk (-8) 7) = -1
   <-> ~ (0 <= -8 + 8 < 16 /\ 0 <= 7 + 8 < 16)) /\
  (0 <= -8 + 8 < 16 /\ 0 <= 7 + 8 < 16 ->
   get_region_map_index (Vector2i.mk (-8) 7) = (7 + 8) * REGION_MAP_SIZE + (-8 + 8) /\
   0 <= get_region_map_index (Vector2i.mk (-8) 7) < 256) /\
  get_region_map_index (Vector2i.mk 8 8) = -1 /\
  get_region_map_index (Vector2i.mk 7 7) = 255.
Proof.
  apply (get_region_map_index_correct (-8) 7);
    unfold int32_range, INT32_MIN, INT32_MAX; lia.
Defined.

(** C3: [get_region_id] returns -1 whenever the location is out of the
    grid bounds, the grid cell holds 0, or the stored id minus one is not
    in [0, get_region_count()); a non-negative result is strictly below
    the length of the active-location list. *)
Theorem get_region_id_miss (st : Terrain3DData) (loc : Vector2i) :
  Terrain3DData_valid st -> Vector2i_valid loc ->
  exists id,
    get_region_id st loc = Some id /\
    (~ (0 <= Vector2i.x loc + 8 < 16 /\ 0 <= Vector2i.y loc + 8 < 16) -> id = -1) /\
    (forall cell,
        _region_map st !! Z.to_nat (get_region_map_index loc) = Some cell ->
        cell = 0 \/ ~ (0 <= cell - 1 < get_region_count st) -> id = -1) /\
    (0 <= id -> id < Z.of_nat (length (_region_locations st))) /\
    (id = -1 \/ 0 <= id < get_region_count st).
Proof.
  intros (Hlen & Hcells & Hcount) [Hx Hy]. destruct loc as [x y].
  cbn [Vector2i.x Vector2i.y] in *.
  destruct (get_region_map_index_spec x y Hx Hy) as [Hin Hout].
  unfold get_region_id.
  destruct (decide (0 <= x + 8 < 16 /\ 0 <= y + 8 < 16)) as [Hb | Hb].
  - (* inside the grid: the cell is read *)
    rewrite (Hin Hb).
    assert (0 <= (y + 8) * 16 + (x + 8) < 256) as Hidx by lia.
    destruct (0 <=? (y + 8) * 16 + (x + 8)) eqn:E; [| apply Z.leb_gt in E; lia].
    destruct (lookup_lt_is_Some_2 (_region_map st)
                (Z.to_nat ((y + 8) * 16 + (x + 8)))) as [cell Hcell].
    { rewrite Hlen. unfold REGION_MAP_SIZE. lia. }
    rewrite Hcell. cbn [mbind option_bind].
    assert (int32_range cell) as Hc.
    { rewrite Forall_lookup in Hcells. exact (Hcells _ _ Hcell). }
    unfold get_region_count in *.
    assert (to_int32 (cell - 1) = cell - 1 \/
            (cell = - 2 ^ 31 /\ to_int32 (cell - 1) = 2 ^ 31 - 1)) as Hsub.
    { unfold int32_range, INT32_MIN, INT32_MAX in Hc.
      destruct (Z.eq_dec cell (- 2 ^ 31)) as [-> | Hne].
      - right. split; reflexivity.
      - left. apply to_int32_id. unfold int32_range, INT32_MIN, INT32_MAX. lia. }
    unfold int32_range, INT32_MIN, INT32_MAX in Hcount.
    destruct ((0 <=? to_int32 (cell - 1))
              && (to_int32 (cell - 1) <? Z.of_nat (length (_region_locations st))))
      eqn:Hok.
    + apply andb_true_iff in Hok as [H0 H1].
      apply Z.leb_le in H0. apply Z.ltb_lt in H1.
      exists (to_int32 (cell - 1)). repeat split; try lia.
      intros cell' Hcell'. inversion Hcell'; subst cell'.
      lia.
    + exists (-1). repeat split; try lia.
  - (* outside the grid *)
    rewrite (Hout Hb). cbn. exists (-1). repeat split; try lia.
Qed.

Lemma scenario_data_valid : Terrain3DData_valid scenario_data.
Proof.
  unfold Terrain3DData_valid. split; [reflexivity |]. split.
  - apply (bool_decide_unpack (Forall int32_range (_region_map scenario_data))).
    vm_compute. exact I.
  - change (get_region_count scenario_data) with 1.
    unfold int32_range, INT32_MIN, INT32_MAX. lia.
Qed.

Lemma get_region_id_miss_witness :
  exists id,
    get_region_id scenario_data (Vector2i.mk 1 0) = Some id /\
    (~ (0 <= 1 + 8 < 16 /\ 0 <= 0 + 8 < 16) -> id = -1) /\
    (forall cell,
        _region_map scenario_data !! Z.to_nat (get_region_map_index (Vector2i.mk 1 0))
          = Some cell ->
        cell = 0 \/ ~ (0 <= cell - 1 < get_region_count scenario_data) -> id = -1) /\
    (0 <= id -> id < Z.of_nat (length (_region_locations scenario_data))) /\
    (id = -1 \/ 0 <= id < get_region_count scenario_data).
Proof.
  apply (get_region_id_miss scenario_data (Vector2i.mk 1 0)).
  - exact scenario_data_valid.
  - split; unfold int32_range, INT32_MIN, INT32_MAX; cbn; lia.
Defined.

(** C8: [get_region_count] is the length of the active-location list
    [_region_locations]; it does not depend on the dictionary [_regions],
    so regions kept there while pending deletion are not counted. *)
Theorem get_region_count_active (st : Terrain3DData) :
  get_region_count st = Z.of_nat (length (_region_locations st)) /\
  (forall regions : gmap Vector2i Terrain3DRegion,
      get_region_count (with_regions st regions) = get_region_count st) /\
  size (get_regions_all scenario_pending) = 2%nat /\
  get_region_count scenario_pending = 1.
Proof.
  split; [reflexivity |]. split; [reflexivity |].
  split; vm_compute; reflexivity.
Qed.

(* ================================================================== *)
(** * The order of real_t *)
(* ================================================================== *)

Ltac real_cases x :=
  let s := fresh "s" in
  let m := fresh "m" in
  let e := fresh "e" in
  destruct x as [s | s | | s m e]; try destruct s.

Ltac compare_cases :=
  repeat match goal with
    | |- context [Pos.compare_cont Eq ?a ?b] =>
        change (Pos.compare_cont Eq a b) with (Pos.compare a b);
        destruct (Pos.compare_spec a b)
    | |- context [Z.compare ?a ?b] => destruct (Z.compare_spec a b)
    end.

Lemma ltb_rank x y :
  Real.isnan x = false -> Real.isnan y = false ->
  (Real.ltb x y = true <-> lex_lt (rank x) (rank y)).
Proof.
  intros Hx Hy. real_cases x; real_cases y; try discriminate;
    unfold Real.ltb, SFltb, SFcompare, rank, lex_lt;
    compare_cases; cbn; split; intros Hgoal; try discriminate; try reflexivity; lia.
Qed.

Lemma leb_rank x y :
  Real.isnan x = false -> Real.isnan y = false ->
  (Real.leb x y = true <-> lex_le (rank x) (rank y)).
Proof.
  intros Hx Hy. real_cases x; real_cases y; try discriminate;
    unfold Real.leb, SFleb, SFcompare, rank, lex_le;
    compare_cases; cbn; split; intros Hgoal; try discriminate; try reflexivity; lia.
Qed.

Lemma ltb_numeric x y :
  Real.ltb x y = true -> Real.isnan x = false /\ Real.isnan y = false.
Proof. real_cases x; real_cases y; cbn; intros H; try discriminate; auto. Qed.

Lemma leb_numeric x y :
  Real.leb x y = true -> Real.isnan x = false /\ Real.isnan y = false.
Proof. real_cases x; real_cases y; cbn; intros H; try discriminate; auto. Qed.

Lemma leb_refl x : Real.isnan x = false -> Real.leb x x = true.
Proof.
  intros Hx. apply leb_rank; [assumption .. |].
  unfold lex_le. destruct (rank x) as [[a b] c]. lia.
Qed.

Lemma leb_trans x y z :
  Real.leb x y = true -> Real.leb y z = true -> Real.leb x z = true.
Proof.
  intros Hxy Hyz.
  destruct (leb_numeric _ _ Hxy) as [Hx Hy].
  destruct (leb_numeric _ _ Hyz) as [_ Hz].
  apply leb_rank in Hxy; [| assumption ..].
  apply leb_rank in Hyz; [| assumption ..].
  apply leb_rank; [assumption .. |].
  unfold lex_le in *.
  destruct (rank x) as [[a1 a2] a3], (rank y) as [[b1 b2] b3],
    (rank z) as [[c1 c2] c3]. lia.
Qed.

Lemma ltb_leb x y : Real.ltb x y = true -> Real.leb x y = true.
Proof.
  intros H. destruct (ltb_numeric _ _ H) as [Hx Hy].
  apply ltb_rank in H; [| assumption ..].
  apply leb_rank; [assumption .. |].
  unfold lex_lt, lex_le in *.
  destruct (rank x) as [[a1 a2] a3], (rank y) as [[b1 b2] b3]. lia.
Qed.

(** On numbers, [a < b] fails exactly when [b <= a]. *)
Lemma ltb_false_leb x y :
  Real.isnan x = false -> Real.isnan y = false ->
  Real.ltb x y = false -> Real.leb y x = true.
Proof.
  intros Hx Hy H.
  apply leb_rank; [assumption .. |].
  assert (~ lex_lt (rank x) (rank y)) as Hn.
  { intros Hlt. apply ltb_rank in Hlt; [| assumption ..]. congruence. }
  unfold lex_lt, lex_le in *.
  destruct (rank x) as [[a1 a2] a3], (rank y) as [[b1 b2] b3]. lia.
Qed.

Lemma ltb_asym x y : Real.ltb x y = true -> Real.ltb y x = false.
Proof.
  intros H. destruct (ltb_numeric _ _ H) as [Hx Hy].
  apply ltb_rank in H; [| assumption ..].
  destruct (Real.ltb y x) eqn:E; [| reflexivity].
  apply ltb_rank in E; [| assumption ..].
  unfold lex_lt in *.
  destruct (rank x) as [[a1 a2] a3], (rank y) as [[b1 b2] b3]. lia.
Qed.

(* ================================================================== *)
(** * The master height range *)
(* ================================================================== *)

Lemma update_master_height_range st h :
  get_height_range (update_master_height st h) =
  let r := get_height_range st in
  if Real.ltb h (Vector2.x r) then Vector2.mk h (Vector2.y r)
  else if Real.gtb h (Vector2.y r) then Vector2.mk (Vector2.x r) h
  else r.
Proof.
  unfold update_master_height, get_height_range. cbn zeta.
  destruct (Real.ltb h _); [reflexivity |].
  destruct (Real.gtb h _); reflexivity.
Qed.

Lemma update_master_heights_range st lh :
  get_height_range (update_master_heights st lh) =
  let r := get_height_range st in
  let r1 := if Real.ltb (Vector2.x lh) (Vector2.x r)
            then Vector2.mk (Vector2.x lh) (Vector2.y r) else r in
  if Real.gtb (Vector2.y lh) (Vector2.y r1)
  then Vector2.mk (Vector2.x r1) (Vector2.y lh) else r1.
Proof.
  unfold update_master_heights, get_height_range. cbn zeta.
  destruct (Real.ltb (Vector2.x lh) _); cbn;
    destruct (Real.gtb (Vector2.y lh) _); reflexivity.
Qed.

Lemma range_within_refl v : range_numeric v -> range_within v v.
Proof. intros [Hx Hy]. split; apply leb_refl; assumption. Qed.

Lemma range_within_trans u v w :
  range_within u v -> range_within v w -> range_within u w.
Proof.
  intros [H1 H2] [H3 H4]. split.
  - exact (leb_trans _ _ _ H3 H1).
  - exact (leb_trans _ _ _ H2 H4).
Qed.

(** One update keeps the bounds numbers and does not narrow the range. *)
Lemma apply_update_widens st u :
  range_numeric (get_height_range st) ->
  range_numeric (get_height_range (apply_update st u)) /\
  range_within (get_height_range st) (get_height_range (apply_update st u)).
Proof.
  intros [Hx Hy]. destruct u as [h | lh]; cbn [apply_update].
  - rewrite update_master_height_range. cbn zeta.
    destruct (Real.ltb h _) eqn:E1; [| destruct (Real.gtb h _) eqn:E2].
    + destruct (ltb_numeric _ _ E1) as [Hh _].
      split; split; cbn; auto using leb_refl, ltb_leb.
    + destruct (ltb_numeric _ _ E2) as [_ Hh].
      split; split; cbn; auto using leb_refl, ltb_leb.
    + split; [split; assumption | apply range_within_refl; split; assumption].
  - rewrite update_master_heights_range. cbn zeta.
    destruct (Real.ltb (Vector2.x lh) _) eqn:E1; cbn;
      destruct (Real.gtb (Vector2.y lh) _) eqn:E2; cbn.
    + destruct (ltb_numeric _ _ E1) as [Hl _].
      destruct (ltb_numeric _ _ E2) as [_ Hh].
      split; split; cbn; auto using leb_refl, ltb_leb.
    + destruct (ltb_numeric _ _ E1) as [Hl _].
      split; split; cbn; auto using leb_refl, ltb_leb.
    + destruct (ltb_numeric _ _ E2) as [_ Hh].
      split; split; cbn; auto using leb_refl, ltb_leb.
    + split; [split; assumption | apply range_within_refl; split; assumption].
Qed.

Lemma apply_updates_widens us : forall st,
  range_numeric (get_height_range st) ->
  range_numeric (get_height_range (apply_updates st us)) /\
  range_within (get_height_range st) (get_height_range (apply_updates st us)).
Proof.
  induction us as [| u us IH]; intros st Hnum; cbn.
  - split; [assumption | apply range_within_refl; assumption].
  - destruct (apply_update_widens st u Hnum) as [Hnum1 Hw1].
    destruct (IH _ Hnum1) as [Hnum2 Hw2].
    split; [assumption | exact (range_within_trans _ _ _ Hw1 Hw2)].
Qed.

(** On an ordered range of numbers, [update_master_height h] makes the
    range contain [h]. *)
Lemma update_master_height_contains st h :
  Real.isnan h = false ->
  Real.leb (Vector2.x (get_height_range st)) (Vector2.y (get_height_range st)) = true ->
  range_contains (get_height_range (update_master_height st h)) h.
Proof.
  intros Hh Hord. destruct (leb_numeric _ _ Hord) as [Hx Hy].
  rewrite update_master_height_range. cbn zeta.
  destruct (Real.ltb h _) eqn:E1; [| destruct (Real.gtb h _) eqn:E2].
  - split; cbn.
    + apply leb_refl; assumption.
    + exact (leb_trans _ _ _ (ltb_leb _ _ E1) Hord).
  - split; cbn.
    + apply ltb_false_leb; assumption.
    + apply leb_refl; assumption.
  - split.
    + apply ltb_false_leb; assumption.
    + apply ltb_false_leb; assumption.
Qed.

(** A pixel write changes the range as [update_master_height] does, or
    not at all. *)
Lemma set_pixel_range st t p v st' :
  set_pixel st t p v = Some st' ->
  get_height_range st' = get_height_range st \/
  get_height_range st' = get_height_range (apply_update st (UpdateHeight (Color.r v))).
Proof.
  unfold set_pixel. destruct (locate_pixel st t p) as [[[[loc i] k] |] |];
    cbn [mbind option_bind]; intros H; inversion H; subst st'; clear H.
  - destruct t; [right | left; reflexivity | left; reflexivity].
    cbn [apply_update]. rewrite !update_master_height_range. reflexivity.
  - left. reflexivity.
Qed.

(** C4 (as amended): from a starting range whose bounds are numbers (not
    NaN), no sequence of calls to [update_master_height] and
    [update_master_heights] narrows the range: the final min is at most
    the starting min and the final max at least the starting max.  When
    moreover the starting min is at most the starting max and [h] is a
    number, the range contains [h] after [update_master_height(h)]. *)
Theorem master_height_range_never_narrows (st : Terrain3DData) :
  range_numeric (get_height_range st) ->
  (forall us : list height_update,
      Real.leb (Vector2.x (get_height_range (apply_updates st us)))
               (Vector2.x (get_height_range st)) = true /\
      Real.leb (Vector2.y (get_height_range st))
               (Vector2.y (get_height_range (apply_updates st us))) = true) /\
  (forall h : real_t,
      Real.isnan h = false ->
      Real.leb (Vector2.x (get_height_range st)) (Vector2.y (get_height_range st)) = true ->
      range_contains (get_height_range (update_master_height st h)) h).
Proof.
  intros Hnum. split.
  - intros us. exact (proj2 (apply_updates_widens us st Hnum)).
  - intros h Hh Hord. apply update_master_height_contains; assumption.
Qed.

Lemma master_height_range_never_narrows_witness :
  (Real.leb (Vector2.x (get_height_range
               (apply_updates initial_data
                  [UpdateHeight real_12_5; UpdateHeights (Vector2.mk real_1 real_70)])))
            (Vector2.x (get_height_range initial_data)) = true /\
   Real.leb (Vector2.y (get_height_range initial_data))
            (Vector2.y (get_height_range
               (apply_updates initial_data
                  [UpdateHeight real_12_5; UpdateHeights (Vector2.mk real_1 real_70)])))
     = true) /\
  range_contains (get_height_range (update_master_height initial_data real_12_5)) real_12_5.
Proof.
  assert (range_numeric (get_height_range initial_data)) as Hnum
    by (split; reflexivity).
  destruct (master_height_range_never_narrows initial_data Hnum) as [Hseq Hone].
  split.
  - apply Hseq.
  - apply Hone; reflexivity.
Defined.

(** C4 fails as stated for every starting pair: from the pair (5,1) a
    call with 3 lowers only the min, and the resulting range (3,1) does
    not contain 3; a NaN height leaves the range (0,0) unchanged, which
    does not contain NaN; and a pair of NaN bounds is never updated and
    compares neither below nor above itself. *)
Lemma master_height_range_counterexample :
  (get_height_range (update_master_height inverted_data real_3)
     = Vector2.mk real_3 real_1 /\
   ~ range_contains (get_height_range (update_master_height inverted_data real_3)) real_3) /\
  (get_height_range (update_master_height initial_data Real.NaN) = V2_ZERO /\
   ~ range_contains (get_height_range (update_master_height initial_data Real.NaN)) Real.NaN) /\
  (get_height_range (update_master_height nan_data real_3)
     = Vector2.mk Real.NaN Real.NaN /\
   Real.leb (Vector2.x (get_height_range (update_master_height nan_data real_3)))
            (Vector2.x (get_height_range nan_data)) = false).
Proof.
  repeat split; try reflexivity; intros [H1 H2]; vm_compute in H1, H2; discriminate.
Qed.

(** C9: the master height range always contains 0.  It starts at (0,0)
    and the two updates only move the min down or the max up, so in every
    reachable state min <= 0 <= max, hence min <= max.  After updates
    with strictly positive heights only, the min is still 0, and after
    strictly negative heights only, the max is still 0. *)
Theorem master_height_range_contains_zero :
  (forall st : Terrain3DData,
      height_range_reachable st ->
      range_contains (get_height_range st) Real.zero /\
      Real.leb (Vector2.x (get_height_range st)) (Vector2.y (get_height_range st)) = true) /\
  (forall (st : Terrain3DData) (hs : list real_t),
      get_height_range st = V2_ZERO ->
      Forall (fun h => Real.ltb Real.zero h = true) hs ->
      Vector2.x (get_height_range (apply_updates st (map UpdateHeight hs))) = Real.zero) /\
  (forall (st : Terrain3DData) (hs : list real_t),
      get_height_range st = V2_ZERO ->
      Forall (fun h => Real.ltb h Real.zero = true) hs ->
      Vector2.y (get_height_range (apply_updates st (map UpdateHeight hs))) = Real.zero).
Proof.
  split; [| split].
  - intros st Hreach.
    assert (range_numeric (get_height_range st) /\
            range_within V2_ZERO (get_height_range st)) as [Hnum [Hlo Hhi]].
    { induction Hreach as [st Hz | st u Hreach [Hnum Hw]
                          | st st' t q v Hreach [Hnum Hw] Hset].
      - unfold get_height_range. rewrite Hz.
        split; [split; reflexivity | split; reflexivity].
      - destruct (apply_update_widens st u Hnum) as [Hnum1 Hw1].
        split; [assumption | exact (range_within_trans _ _ _ Hw Hw1)].
      - destruct (set_pixel_range _ _ _ _ _ Hset) as [-> | ->].
        + split; assumption.
        + destruct (apply_update_widens st (UpdateHeight (Color.r v)) Hnum)
            as [Hnum1 Hw1].
          split; [assumption | exact (range_within_trans _ _ _ Hw Hw1)]. }
    cbn in Hlo, Hhi. split; [split; assumption |].
    exact (leb_trans _ _ _ Hlo Hhi).
  - intros st hs Hz Hpos. assert (Vector2.x (get_height_range st) = Real.zero) as Hx
      by (rewrite Hz; reflexivity).
    clear Hz. revert st Hx. induction Hpos as [| h hs Hh Hpos IH]; intros st Hx; cbn.
    + exact Hx.
    + apply IH. rewrite update_master_height_range. cbn zeta. rewrite Hx.
      rewrite (ltb_asym _ _ Hh).
      destruct (Real.gtb h _); [reflexivity | exact Hx].
  - intros st hs Hz Hneg. assert (Vector2.y (get_height_range st) = Real.zero) as Hy
      by (rewrite Hz; reflexivity).
    clear Hz. revert st Hy. induction Hneg as [| h hs Hh Hneg IH]; intros st Hy; cbn.
    + exact Hy.
    + apply IH. rewrite update_master_height_range. cbn zeta.
      destruct (Real.ltb h (Vector2.x (get_height_range st))); [exact Hy |].
      rewrite Hy. change (Real.gtb h Real.zero) with (Real.ltb Real.zero h).
      rewrite (ltb_asym _ _ Hh). exact Hy.
Qed.

Lemma master_height_range_contains_zero_witness :
  (range_contains (get_height_range (update_master_height initial_data real_12_5)) Real.zero /\
   Real.leb (Vector2.x (get_height_range (update_master_height initial_data real_12_5)))
            (Vector2.y (get_height_range (update_master_height initial_data real_12_5)))
     = true) /\
  Vector2.x (get_height_range
               (apply_updates initial_data (map UpdateHeight [real_12_5; real_3])))
    = Real.zero /\
  Vector2.y (get_height_range
               (apply_updates initial_data
                  (map UpdateHeight [SFopp real_12_5; SFopp real_3])))
    = Real.zero.
Proof.
  destruct master_height_range_contains_zero as (Hinv & Hpos & Hneg).
  split; [| split].
  - apply (Hinv (apply_update initial_data (UpdateHeight real_12_5))).
    apply reachable_update, reachable_zero. reflexivity.
  - apply Hpos; [reflexivity |]. repeat constructor.
  - apply Hneg; [reflexivity |]. repeat constructor.
Defined.

(* ================================================================== *)
(** * World position to region location *)
(* ================================================================== *)

Lemma iter_xO_pow2 (d p : positive) :
  Zpos (Pos.iter xO p d) = Zpos p * 2 ^ Zpos d.
Proof.
  induction d as [| d IH] using Pos.peano_ind.
  - cbn. lia.
  - rewrite Pos.iter_succ, Pos2Z.inj_succ, Z.pow_succ_r by lia.
    rewrite Pos2Z.inj_xO, IH. lia.
Qed.

Lemma cond_Zopp_mul s a b : cond_Zopp s (a * b) = cond_Zopp s a * b.
Proof. destruct s; cbn; lia. Qed.

(** Converting the exact float of an integer back to [int32_t] gives the
    integer. *)
Lemma to_int_of_small_int s n :
  int32_range n -> Real.to_int (Real.of_small_int s n) = Some n.
Proof.
  intros Hn.
  assert (forall (sg : bool) (p : positive),
             int32_range (cond_Zopp sg (Zpos p)) ->
             Real.to_int
               (let '(m, e) := shl_align p 0 (Zpos (digits2_pos p) - Real.prec) in
                S754_finite sg m e) = Some (cond_Zopp sg (Zpos p))) as Hfin.
  { intros sg p Hr. unfold shl_align.
    destruct (Zpos (digits2_pos p) - Real.prec - 0) as [| k | d] eqn:Ek.
    - unfold Real.to_int. cbn [Z.leb Z.compare]. rewrite Z.pow_0_r, Z.mul_1_r.
      unfold int32_range in Hr.
      destruct (INT32_MIN <=? _) eqn:E1; [| apply Z.leb_gt in E1; lia].
      destruct (_ <=? INT32_MAX) eqn:E2; [| apply Z.leb_gt in E2; lia].
      reflexivity.
    - unfold Real.to_int. cbn [Z.leb Z.compare]. rewrite Z.pow_0_r, Z.mul_1_r.
      unfold int32_range in Hr.
      destruct (INT32_MIN <=? _) eqn:E1; [| apply Z.leb_gt in E1; lia].
      destruct (_ <=? INT32_MAX) eqn:E2; [| apply Z.leb_gt in E2; lia].
      reflexivity.
    - unfold Real.to_int.
      assert (Zpos (digits2_pos p) - Real.prec = Zneg d) as -> by lia.
      cbn [Z.leb Z.compare Z.opp]. rewrite iter_xO_pow2.
      rewrite Z.div_mul by lia.
      unfold int32_range in Hr.
      destruct (INT32_MIN <=? _) eqn:E1; [| apply Z.leb_gt in E1; lia].
      destruct (_ <=? INT32_MAX) eqn:E2; [| apply Z.leb_gt in E2; lia].
      reflexivity. }
  destruct n as [| p | p]; cbn [Real.of_small_int].
  - reflexivity.
  - exact (Hfin false p Hn).
  - exact (Hfin true p Hn).
Qed.

(** [Math::floor] followed by the conversion to [int32_t] is the
    mathematical floor of the value of the number. *)
Lemma to_int_floor x v :
  Real.to_Q x = Some v -> int32_range (Qfloor v) ->
  Real.to_int (Real.floor x) = Some (Qfloor v).
Proof.
  destruct x as [s | s | | s m e]; cbn [Real.to_Q]; intros Hv Hr;
    try discriminate; inversion Hv; subst v; clear Hv.
  - reflexivity.
  - unfold Real.floor. destruct (0 <=? e) eqn:Ee.
    + rewrite Qfloor_Z in *. unfold Real.to_int. rewrite Ee.
      rewrite cond_Zopp_mul. unfold int32_range in Hr.
      destruct (INT32_MIN <=? _) eqn:E1; [| apply Z.leb_gt in E1; lia].
      destruct (_ <=? INT32_MAX) eqn:E2; [| apply Z.leb_gt in E2; lia].
      reflexivity.
    + apply Z.leb_gt in Ee.
      assert (Qfloor (cond_Zopp s (Zpos m) # Z.to_pos (2 ^ (- e)))
              = cond_Zopp s (Zpos m) / 2 ^ (- e)) as Hq.
      { unfold Qfloor. rewrite Z2Pos.id by (apply Z.pow_pos_nonneg; lia).
        reflexivity. }
      rewrite Hq in *. apply to_int_of_small_int. exact Hr.
Qed.

(** C5 (as amended): [get_region_location] returns the componentwise
    floor of the [real_t] quotients x / (mesh_vertex_spacing *
    region_size) and z / (mesh_vertex_spacing * region_size), product
    and quotients rounded as [real_t] operations are, for every world
    position for which these quotients are finite and their floors are
    [int32_t] values.  With vertex spacing 1.0 and region size 64, world
    position (70, 0, 5) maps to location (1,0). *)
Theorem get_region_location_floor (st : Terrain3DData) (p : Vector3) (vx vz : Q) :
  let d := Real.mul (_mesh_vertex_spacing st) (Real.of_int (_region_size st)) in
  Real.to_Q (Real.div (Vector3.x p) d) = Some vx ->
  Real.to_Q (Real.div (Vector3.z p) d) = Some vz ->
  int32_range (Qfloor vx) -> int32_range (Qfloor vz) ->
  get_region_location st p = Some (Vector2i.mk (Qfloor vx) (Qfloor vz)) /\
  get_region_location scenario_data scenario_position = Some (Vector2i.mk 1 0).
Proof.
  intros d Hvx Hvz Hrx Hrz. split; [| reflexivity].
  unfold get_region_location, Vector2.to_Vector2i, Vector2.floor, Vector2.div.
  cbn [Vector2.x Vector2.y]. fold d.
  rewrite (to_int_floor _ _ Hvx Hrx), (to_int_floor _ _ Hvz Hrz).
  reflexivity.
Qed.

Lemma get_region_location_floor_witness :
  get_region_location scenario_data
    (Vector3.mk (SFopp real_70) Real.zero real_12_5)
    = Some (Vector2i.mk (-2) 0) /\
  get_region_location scenario_data scenario_position = Some (Vector2i.mk 1 0).
Proof.
  apply (get_region_location_floor scenario_data
           (Vector3.mk (SFopp real_70) Real.zero real_12_5)
           (-9175040 # 8388608) (13107200 # 67108864)).
  - vm_compute. reflexivity.
  - vm_compute. reflexivity.
  - vm_compute. split; discriminate.
  - vm_compute. split; discriminate.
Defined.

(** C5 fails as stated for every world position.  With vertex spacing
    1.0 and region size 64: at x = -2^-149 the exact quotient x / 64 is
    negative, with floor -1, but the [real_t] quotient rounds to -0.0 and
    the location is (0,0); at x = 2^40 the floor of the quotient is 2^34,
    which no [Vector2i] component can hold, and the conversion is
    undefined. *)
Lemma get_region_location_counterexample :
  ((fun v => Qfloor (v / inject_Z 64)) <$> Real.to_Q real_tiny_negative = Some (-1) /\
   get_region_location scenario_data tiny_negative_position = Some (Vector2i.mk 0 0)) /\
  (Qfloor <$> Real.to_Q
                (Real.div real_2_40
                   (Real.mul (_mesh_vertex_spacing scenario_data)
                      (Real.of_int (_region_size scenario_data))))
     = Some (2 ^ 34) /\
   ~ int32_range (2 ^ 34) /\
   get_region_location scenario_data far_position = None).
Proof.
  split; [split | split; [| split]]; try (vm_compute; reflexivity).
  unfold int32_range, INT32_MAX. lia.
Qed.

(* ================================================================== *)
(** * Pixel access *)
(* ================================================================== *)












(** What a read returns. *)
Lemma get_pixel_miss st t p :
  locate_pixel st t p = Some None -> get_pixel st t p = Some COLOR_NAN.
Proof. intros H. unfold get_pixel. rewrite H. reflexivity. Qed.




(* ================================================================== *)
(** * Reinterpreting control values *)
(* ================================================================== *)

Lemma digits2_pos_size m : digits2_pos m = Pos.size m.
Proof. induction m as [m IH | m IH |]; cbn; congruence. Qed.

Lemma valid_finite_bound s m e :
  Real.valid (S754_finite s m e) = true -> Zpos m < 2 ^ 24 /\ e <= 104.
Proof.
  unfold Real.valid, valid_binary, bounded, canonical_mantissa, fexp, emin,
    Real.prec, Real.emax.
  intros H. apply andb_true_iff in H as [Hc He].
  apply Z.eqb_eq in Hc. apply Z.leb_le in He.
  split; [| lia].
  rewrite digits2_pos_size in Hc.
  pose proof (Pos.size_gt m) as Hgt.
  apply Pos2Z.pos_lt_pos in Hgt. rewrite Pos2Z.inj_pow in Hgt.
  assert (Zpos (Pos.size m) <= 24) as Hd by lia.
  pose proof (Z.pow_le_mono_r 2 (Zpos (Pos.size m)) 24 ltac:(lia) Hd).
  change (Zpos 2) with 2 in Hgt. lia.
Qed.

(** Only NaN is read back as the all-ones pattern. *)
Lemma as_uint_not_max x :
  Real.valid x = true -> Real.isnan x = false -> as_uint x <> UINT32_MAX.
Proof.
  unfold UINT32_MAX. destruct x as [s | s | | s m e]; intros Hv Hn; cbn [as_uint].
  - destruct s; cbn; lia.
  - destruct s; cbn; lia.
  - discriminate.
  - destruct (valid_finite_bound _ _ _ Hv) as [Hm He].
    assert (0 <= sign_bit s <= 2 ^ 31) as Hs by (destruct s; cbn; lia).
    destruct (Zpos m <? 2 ^ 23) eqn:E.
    + apply Z.ltb_lt in E. lia.
    + apply Z.ltb_ge in E. nia.
Qed.

(** The fields of a 32-bit pattern. *)
Lemma uint32_fields c :
  uint32_range c ->
  Z.land c 0x7FFFFF = c mod 2 ^ 23 /\
  Z.land (Z.shiftr c 23) 0xFF = (c / 2 ^ 23) mod 2 ^ 8 /\
  sign_bit (Z.testbit c 31) = c / 2 ^ 31 * 2 ^ 31 /\
  0 <= c / 2 ^ 31 <= 1.
Proof.
  unfold uint32_range, UINT32_MAX. intros Hc.
  split; [| split; [| split]].
  - change 0x7FFFFF with (Z.ones 23). apply Z.land_ones. lia.
  - change 0xFF with (Z.ones 8). rewrite Z.land_ones, Z.shiftr_div_pow2 by lia.
    reflexivity.
  - assert (0 <= c / 2 ^ 31 <= 1) as Hq.
    { split; [apply Z.div_pos; lia |].
      apply Z.lt_succ_r. apply Z.div_lt_upper_bound; lia. }
    destruct (Z.testbit c 31) eqn:E.
    + apply Z.testbit_true in E; [| lia].
      assert (c / 2 ^ 31 = 1) as ->.
      { destruct (Z.eq_dec (c / 2 ^ 31) 0) as [H0 | H0]; [| lia].
        rewrite H0 in E. discriminate. }
      reflexivity.
    + apply Z.testbit_false in E; [| lia].
      assert (c / 2 ^ 31 = 0) as ->.
      { destruct (Z.eq_dec (c / 2 ^ 31) 1) as [H1 | H1]; [| lia].
        rewrite H1 in E. discriminate. }
      reflexivity.
  - split; [apply Z.div_pos; lia |].
    apply Z.lt_succ_r. apply Z.div_lt_upper_bound; lia.
Qed.

(** A pattern that is not a NaN survives the trip through [real_t]. *)
Lemma as_uint_as_float c :
  uint32_range c -> Real.isnan (as_float c) = false -> as_uint (as_float c) = c.
Proof.
  intros Hc. destruct (uint32_fields c Hc) as (Hman & Hex & Hsign & Hq).
  unfold uint32_range, UINT32_MAX in Hc.
  unfold as_float. rewrite Hman, Hex.
  assert (c = c / 2 ^ 31 * 2 ^ 31 + (c / 2 ^ 23) mod 2 ^ 8 * 2 ^ 23 + c mod 2 ^ 23)
    as Hsplit.
  { change (2 ^ 31) with 2147483648. change (2 ^ 23) with 8388608.
    change (2 ^ 8) with 256. Z.div_mod_to_equations. lia. }
  assert (0 <= (c / 2 ^ 23) mod 2 ^ 8 < 256) as Hexr
    by (apply Z.mod_pos_bound; lia).
  assert (0 <= c mod 2 ^ 23 < 2 ^ 23) as Hmanr by (apply Z.mod_pos_bound; lia).
  set (ex := (c / 2 ^ 23) mod 2 ^ 8) in *.
  set (man := c mod 2 ^ 23) in *.
  destruct (ex =? 0) eqn:E0.
  - apply Z.eqb_eq in E0.
    destruct man as [| q | q] eqn:Em; intros _; cbn [as_uint]; try lia.
    destruct (Zpos q <? 2 ^ 23) eqn:Elt; [lia | apply Z.ltb_ge in Elt; lia].
  - apply Z.eqb_neq in E0.
    destruct (ex =? 255) eqn:E255.
    + apply Z.eqb_eq in E255.
      destruct (man =? 0) eqn:Em0; [| discriminate].
      apply Z.eqb_eq in Em0. intros _. cbn [as_uint]. lia.
    + apply Z.eqb_neq in E255.
      destruct (man + 2 ^ 23) as [| q | q] eqn:Em; [discriminate | | discriminate].
      intros _. cbn [as_uint].
      destruct (Zpos q <? 2 ^ 23) eqn:Elt; [apply Z.ltb_lt in Elt; lia |].
      lia.
Qed.

(* ================================================================== *)
(** * The typed accessors *)
(* ================================================================== *)

(** C6: [get_color] returns the stored color pixel with its 4th channel
    replaced by 1.0, so the 4th channel of every [get_color] result is
    1.0; [get_roughness] at the same position returns the 4th channel of
    that same pixel unmodified. *)
Theorem get_color_forces_alpha (st : Terrain3DData) (p : Vector3) :
  match get_pixel st TYPE_COLOR p with
  | Some px =>
      get_color st p
        = Some (Color.mk (Color.r px) (Color.g px) (Color.b px) Real.one) /\
      get_roughness st p = Some (Color.a px)
  | None => get_color st p = None /\ get_roughness st p = None
  end /\
  Color.a <$> get_color st p = (fun _ => Real.one) <$> get_pixel st TYPE_COLOR p /\
  get_pixel scenario_rough TYPE_COLOR scenario_position
    = Some (Color.mk Real.zero Real.zero Real.zero real_12_5) /\
  get_color scenario_rough scenario_position
    = Some (Color.mk Real.zero Real.zero Real.zero Real.one) /\
  get_roughness scenario_rough scenario_position = Some real_12_5.
Proof.
  unfold get_color, get_roughness.
  split; [| split; [| repeat split; vm_compute; reflexivity]].
  - destruct (get_pixel st TYPE_COLOR p) as [px |]; cbn; auto.
  - destruct (get_pixel st TYPE_COLOR p) as [px |]; reflexivity.
Qed.

(** C7: [get_control] returns UINT32_MAX exactly when the underlying
    pixel read yields NaN, as it does when no active region covers the
    position, and otherwise the 32-bit pattern of the stored float. *)
Theorem get_control_sentinel (st : Terrain3DData) (p : Vector3) (px : Color) :
  get_pixel st TYPE_CONTROL p = Some px ->
  Real.valid (Color.r px) = true ->
  (get_control st p = Some UINT32_MAX <-> Real.isnan (Color.r px) = true) /\
  (Real.isnan (Color.r px) = false -> get_control st p = Some (as_uint (Color.r px))) /\
  (locate_pixel st TYPE_CONTROL p = Some None ->
   Real.isnan (Color.r px) = true /\ get_control st p = Some UINT32_MAX).
Proof.
  intros Hpx Hvalid. unfold get_control. rewrite Hpx. cbn [mbind option_bind].
  split; [| split].
  - destruct (Real.isnan (Color.r px)) eqn:E; split; intros H; try reflexivity.
    + inversion H as [Hmax]. exfalso.
      exact (as_uint_not_max _ Hvalid E Hmax).
    + discriminate.
  - intros ->. reflexivity.
  - intros Hmiss. rewrite (get_pixel_miss _ _ _ Hmiss) in Hpx.
    inversion Hpx; subst px. split; reflexivity.
Qed.

Lemma get_control_sentinel_witness :
  (get_control scenario_data origin_position = Some UINT32_MAX
   <-> Real.isnan (Color.r COLOR_NAN) = true) /\
  (Real.isnan (Color.r COLOR_NAN) = false ->
   get_control scenario_data origin_position = Some (as_uint (Color.r COLOR_NAN))) /\
  (locate_pixel scenario_data TYPE_CONTROL origin_position = Some None ->
   Real.isnan (Color.r COLOR_NAN) = true /\
   get_control scenario_data origin_position = Some UINT32_MAX).
Proof.
  apply (get_control_sentinel scenario_data origin_position COLOR_NAN).
  - vm_compute. reflexivity.
  - reflexivity.
Defined.












(* ================================================================== *)
(** * More on the region map *)
(* ================================================================== *)

Lemma in_region_map_offsets x y :
  in_region_map (Vector2i.mk x y) <-> (0 <= x + 8 < 16 /\ 0 <= y + 8 < 16).
Proof. unfold in_region_map. cbn. lia. Qed.

(** The index of a location, by cases. *)
Lemma get_region_map_index_cases loc :
  Vector2i_valid loc ->
  (in_region_map loc /\
   get_region_map_index loc = (Vector2i.y loc + 8) * 16 + (Vector2i.x loc + 8) /\
   0 <= get_region_map_index loc < 256) \/
  (~ in_region_map loc /\ get_region_map_index loc = -1).
Proof.
  destruct loc as [x y]. intros [Hx Hy]. cbn [Vector2i.x Vector2i.y] in *.
  destruct (get_region_map_index_spec x y Hx Hy) as [Hin Hout].
  destruct (decide (0 <= x + 8 < 16 /\ 0 <= y + 8 < 16)) as [Hb | Hb].
  - left. rewrite in_region_map_offsets. rewrite (Hin Hb). lia.
  - right. rewrite in_region_map_offsets. auto.
Qed.

Lemma region_map_index_inj loc loc' :
  Vector2i_valid loc -> Vector2i_valid loc' ->
  get_region_map_index loc <> -1 ->
  get_region_map_index loc = get_region_map_index loc' -> loc = loc'.
Proof.
  intros Hv Hv' Hne Heq.
  destruct (get_region_map_index_cases loc Hv) as [(Hin & Hidx & _) | (_ & Hidx)];
    [| congruence].
  destruct (get_region_map_index_cases loc' Hv') as [(Hin' & Hidx' & _) | (_ & Hidx')];
    [| congruence].
  destruct loc as [x y], loc' as [x' y']. unfold in_region_map in *.
  cbn [Vector2i.x Vector2i.y] in *.
  assert (x = x' /\ y = y') as [-> ->] by lia. reflexivity.
Qed.

(** X1: on the valid locations [get_region_map_index] is one-to-one, and
    every index in [0,256) is the index of a valid location. *)
Theorem get_region_map_index_bijective :
  (forall loc loc' : Vector2i,
      Vector2i_valid loc -> Vector2i_valid loc' ->
      get_region_map_index loc <> -1 ->
      get_region_map_index loc = get_region_map_index loc' -> loc = loc') /\
  (forall i : Z,
      0 <= i < 256 ->
      exists loc, in_region_map loc /\ get_region_map_index loc = i).
Proof.
  split; [exact region_map_index_inj |].
  intros i Hi. exists (Vector2i.mk (i mod 16 - 8) (i / 16 - 8)).
  assert (0 <= i mod 16 < 16) as Hm by (apply Z.mod_pos_bound; lia).
  assert (0 <= i / 16 < 16) as Hd.
  { split; [apply Z.div_pos; lia | apply Z.div_lt_upper_bound; lia]. }
  assert (in_region_map (Vector2i.mk (i mod 16 - 8) (i / 16 - 8))) as Hin
    by (unfold in_region_map; cbn; lia).
  split; [exact Hin |].
  destruct (get_region_map_index_cases (Vector2i.mk (i mod 16 - 8) (i / 16 - 8)))
    as [(_ & Hidx & _) | (Hout & _)]; [| | contradiction].
  - split; unfold int32_range, INT32_MIN, INT32_MAX; cbn; lia.
  - rewrite Hidx. cbn [Vector2i.x Vector2i.y].
    pose proof (Z.div_mod i 16 ltac:(lia)). lia.
Qed.

Lemma get_region_map_index_bijective_witness :
  Vector2i.mk 7 (-8) = Vector2i.mk 7 (-8) /\
  exists loc, in_region_map loc /\ get_region_map_index loc = 255.
Proof.
  destruct get_region_map_index_bijective as [Hinj Hsurj]. split.
  - apply Hinj; try reflexivity;
      try (split; unfold int32_range, INT32_MIN, INT32_MAX; cbn; lia).
    vm_compute. discriminate.
  - apply Hsurj. lia.
Defined.

(** What [get_region_id] returns, by cases on the location and the cell. *)
Lemma get_region_id_cases st loc :
  Terrain3DData_valid st -> Vector2i_valid loc ->
  (in_region_map loc /\
   exists cell,
     _region_map st !! Z.to_nat (get_region_map_index loc) = Some cell /\
     int32_range cell /\
     get_region_id st loc
       = Some (if (1 <=? cell) && (cell <=? get_region_count st)
               then cell - 1 else -1)) \/
  (~ in_region_map loc /\ get_region_id st loc = Some (-1)).
Proof.
  intros (Hlen & Hcells & Hcount) Hv.
  destruct (get_region_map_index_cases loc Hv) as [(Hin & Hidx & Hr) | (Hout & Hidx)].
  - left. split; [exact Hin |].
    destruct (lookup_lt_is_Some_2 (_region_map st)
                (Z.to_nat (get_region_map_index loc))) as [cell Hcell].
    { rewrite Hlen. unfold REGION_MAP_SIZE. lia. }
    assert (int32_range cell) as Hc.
    { rewrite Forall_lookup in Hcells. exact (Hcells _ _ Hcell). }
    exists cell. split; [exact Hcell |]. split; [exact Hc |].
    unfold get_region_id. rewrite Hcell.
    destruct (0 <=? get_region_map_index loc) eqn:E; [| apply Z.leb_gt in E; lia].
    cbn [mbind option_bind].
    unfold int32_range, INT32_MIN, INT32_MAX in Hc, Hcount.
    assert (to_int32 (cell - 1) = cell - 1 \/
            (cell = - 2 ^ 31 /\ to_int32 (cell - 1) = 2 ^ 31 - 1)) as Hsub.
    { destruct (Z.eq_dec cell (- 2 ^ 31)) as [-> | Hne].
      - right. split; reflexivity.
      - left. apply to_int32_id. unfold int32_range, INT32_MIN, INT32_MAX. lia. }
    destruct ((0 <=? to_int32 (cell - 1))
              && (to_int32 (cell - 1) <? get_region_count st)) eqn:Hok;
      destruct ((1 <=? cell) && (cell <=? get_region_count st)) eqn:Hok';
      rewrite ?andb_true_iff, ?andb_false_iff, ?Z.leb_le, ?Z.ltb_lt,
        ?Z.leb_gt, ?Z.ltb_ge in Hok, Hok'.
    + f_equal. lia.
    + exfalso. lia.
    + exfalso. lia.
    + reflexivity.
  - right. split; [exact Hout |]. unfold get_region_id. rewrite Hidx. reflexivity.
Qed.

Lemma andb_range_true cell count :
  (1 <=? cell) && (cell <=? count) = true <-> 1 <= cell <= count.
Proof. rewrite andb_true_iff, !Z.leb_le. tauto. Qed.

Lemma region_id_hit_iff st loc id :
  Terrain3DData_valid st -> Vector2i_valid loc -> 0 <= id ->
  (get_region_id st loc = Some id <->
   in_region_map loc /\
   _region_map st !! Z.to_nat (get_region_map_index loc) = Some (id + 1) /\
   id < get_region_count st).
Proof.
  intros Hst Hv Hid.
  destruct (get_region_id_cases st loc Hst Hv)
    as [(Hin & cell & Hcell & Hc & Hget) | (Hout & Hget)]; rewrite Hget.
  - destruct ((1 <=? cell) && (cell <=? get_region_count st)) eqn:E.
    + apply andb_range_true in E. split.
      * intros H. inversion H; subst id. split; [exact Hin |].
        rewrite Hcell. split; [f_equal; lia | lia].
      * intros (_ & Hcell' & _). rewrite Hcell in Hcell'. inversion Hcell'. f_equal. lia.
    + assert (~ 1 <= cell <= get_region_count st) as Hn.
      { intros Hr. apply andb_range_true in Hr. congruence. }
      split.
      * intros H. inversion H. lia.
      * intros (_ & Hcell' & Hlt). rewrite Hcell in Hcell'. inversion Hcell'. lia.
  - split.
    + intros H. inversion H. lia.
    + intros (Hin & _). contradiction.
Qed.

(** X2: [get_region_id] returns a non-negative [id] exactly when the
    location is valid, its cell of the region map holds [id + 1], and
    [id] is below the region count. *)
Theorem get_region_id_hit (st : Terrain3DData) (loc : Vector2i) (id : Z) :
  Terrain3DData_valid st -> Vector2i_valid loc -> 0 <= id ->
  (get_region_id st loc = Some id <->
   in_region_map loc /\
   _region_map st !! Z.to_nat (get_region_map_index loc) = Some (id + 1) /\
   id < get_region_count st).
Proof.
  intros Hst Hv Hid.
  destruct (get_region_id_cases st loc Hst Hv)
    as [(Hin & cell & Hcell & Hc & Hget) | (Hout & Hget)]; rewrite Hget.
  - destruct ((1 <=? cell) && (cell <=? get_region_count st)) eqn:E.
    + apply andb_range_true in E. split.
      * intros H. inversion H; subst id. split; [exact Hin |].
        rewrite Hcell. split; [f_equal; lia | lia].
      * intros (_ & Hcell' & _). rewrite Hcell in Hcell'. inversion Hcell'. f_equal. lia.
    + assert (~ 1 <= cell <= get_region_count st) as Hn.
      { intros Hr. apply andb_range_true in Hr. congruence. }
      split.
      * intros H. inversion H. lia.
      * intros (_ & Hcell' & Hlt). rewrite Hcell in Hcell'. inversion Hcell'. lia.
  - split.
    + intros H. inversion H. lia.
    + intros (Hin & _). contradiction.
Qed.

Lemma get_region_id_hit_witness :
  get_region_id scenario_two_regions (Vector2i.mk (-8) 7) = Some 1 <->
  in_region_map (Vector2i.mk (-8) 7) /\
  _region_map scenario_two_regions
    !! Z.to_nat (get_region_map_index (Vector2i.mk (-8) 7)) = Some (1 + 1) /\
  1 < get_region_count scenario_two_regions.
Proof.
  apply (get_region_id_hit scenario_two_regions (Vector2i.mk (-8) 7) 1).
  - split; [reflexivity |]. split.
    + apply (bool_decide_unpack
               (Forall int32_range (_region_map scenario_two_regions))).
      vm_compute. exact I.
    + change (get_region_count scenario_two_regions) with 2.
      unfold int32_range, INT32_MIN, INT32_MAX. lia.
  - split; unfold int32_range, INT32_MIN, INT32_MAX; cbn; lia.
  - lia.
Defined.

(** X3: storing [id + 1] in the cell of a valid location makes
    [get_region_id] return [id] there and leaves the id of every other
    location unchanged. *)
Theorem get_region_id_after_cell_write (st st' : Terrain3DData) (loc : Vector2i) (id : Z) :
  Terrain3DData_valid st -> in_region_map loc ->
  0 <= id < get_region_count st ->
  _region_map st' = <[Z.to_nat (get_region_map_index loc) := id + 1]> (_region_map st) ->
  _region_locations st' = _region_locations st ->
  get_region_id st' loc = Some id /\
  (forall loc' : Vector2i,
      Vector2i_valid loc' -> loc' <> loc ->
      get_region_id st' loc' = get_region_id st loc').
Proof.
  intros Hst Hin Hid Hmap Hlocs.
  assert (Vector2i_valid loc) as Hv.
  { destruct Hin. split; unfold int32_range, INT32_MIN, INT32_MAX; lia. }
  assert (get_region_count st' = get_region_count st) as Hcount
    by (unfold get_region_count; rewrite Hlocs; reflexivity).
  destruct Hst as (Hlen & Hcells & Hc).
  assert (Terrain3DData_valid st') as Hst'.
  { split; [rewrite Hmap, length_insert; exact Hlen |]. split.
    - rewrite Hmap. apply Forall_insert; [exact Hcells |].
      unfold int32_range, INT32_MIN, INT32_MAX in *. lia.
    - rewrite Hcount. exact Hc. }
  destruct (get_region_map_index_cases loc Hv) as [(_ & Hidx & Hr) | (Hout & _)];
    [| contradiction].
  split.
  - apply (region_id_hit_iff st' loc id Hst' Hv); [lia |].
    split; [exact Hin |]. split; [| lia].
    rewrite Hmap. apply list_lookup_insert_eq. rewrite Hlen. unfold REGION_MAP_SIZE. lia.
  - intros loc' Hv' Hne.
    unfold get_region_id. rewrite Hcount, Hmap.
    destruct (0 <=? get_region_map_index loc') eqn:E; [| reflexivity].
    apply Z.leb_le in E.
    rewrite list_lookup_insert_ne; [reflexivity |].
    intros Heq. apply Hne.
    apply (region_map_index_inj loc' loc Hv' Hv); [| lia].
    destruct (get_region_map_index_cases loc' Hv') as [(_ & _ & ?) | (_ & ?)]; lia.
Qed.

Lemma scenario_unmapped_valid : Terrain3DData_valid scenario_unmapped.
Proof.
  split; [reflexivity |]. split.
  - apply (bool_decide_unpack (Forall int32_range (_region_map scenario_unmapped))).
    vm_compute. exact I.
  - change (get_region_count scenario_unmapped) with 2.
    unfold int32_range, INT32_MIN, INT32_MAX. lia.
Qed.

Lemma get_region_id_after_cell_write_witness :
  get_region_id scenario_two_regions (Vector2i.mk (-8) 7) = Some 1 /\
  (forall loc' : Vector2i,
      Vector2i_valid loc' -> loc' <> Vector2i.mk (-8) 7 ->
      get_region_id scenario_two_regions loc' = get_region_id scenario_unmapped loc').
Proof.
  apply (get_region_id_after_cell_write scenario_unmapped scenario_two_regions
           (Vector2i.mk (-8) 7) 1).
  - exact scenario_unmapped_valid.
  - unfold in_region_map. cbn. lia.
  - change (get_region_count scenario_unmapped) with 2. lia.
  - reflexivity.
  - reflexivity.
Defined.

(** X4: a cell that refers to an id at or beyond the region count is a
    miss: when two states share the region map, an id found in the first
    is found in the second if it is below the second's region count, and
    is -1 there otherwise. *)
Theorem get_region_id_stale (st1 st2 : Terrain3DData) (loc : Vector2i) (id : Z) :
  Terrain3DData_valid st1 -> Terrain3DData_valid st2 -> Vector2i_valid loc ->
  _region_map st2 = _region_map st1 ->
  get_region_id st1 loc = Some id -> 0 <= id ->
  get_region_id st2 loc = Some (if id <? get_region_count st2 then id else -1).
Proof.
  intros Hst1 Hst2 Hv Hmap Hget Hid.
  apply (region_id_hit_iff st1 loc id Hst1 Hv Hid) in Hget as (Hin & Hcell & Hlt).
  destruct (id <? get_region_count st2) eqn:E.
  - apply Z.ltb_lt in E.
    apply (region_id_hit_iff st2 loc id Hst2 Hv Hid).
    rewrite Hmap. auto.
  - apply Z.ltb_ge in E.
    destruct (get_region_id_cases st2 loc Hst2 Hv)
      as [(_ & cell & Hcell2 & _ & Hget2) | (Hout & _)]; [| contradiction].
    rewrite Hmap, Hcell in Hcell2. inversion Hcell2; subst cell.
    rewrite Hget2.
    destruct ((1 <=? id + 1) && (id + 1 <=? get_region_count st2)) eqn:E2;
      [| reflexivity].
    apply andb_range_true in E2. lia.
Qed.

Lemma get_region_id_stale_witness :
  get_region_id scenario_pending_shrunk (Vector2i.mk (-8) 7)
    = Some (if 1 <? get_region_count scenario_pending_shrunk then 1 else -1).
Proof.
  apply (get_region_id_stale scenario_two_regions scenario_pending_shrunk
           (Vector2i.mk (-8) 7) 1).
  - split; [reflexivity |]. split.
    + apply (bool_decide_unpack
               (Forall int32_range (_region_map scenario_two_regions))).
      vm_compute. exact I.
    + change (get_region_count scenario_two_regions) with 2.
      unfold int32_range, INT32_MIN, INT32_MAX. lia.
  - split; [reflexivity |]. split.
    + apply (bool_decide_unpack
               (Forall int32_range (_region_map scenario_pending_shrunk))).
      vm_compute. exact I.
    + change (get_region_count scenario_pending_shrunk) with 1.
      unfold int32_range, INT32_MIN, INT32_MAX. lia.
  - split; unfold int32_range, INT32_MIN, INT32_MAX; cbn; lia.
  - reflexivity.
  - vm_compute. reflexivity.
  - lia.
Defined.

(** X5: [has_region] holds exactly for the valid locations whose cell of
    the region map holds a value from 1 to the region count. *)
Theorem has_region_iff (st : Terrain3DData) (loc : Vector2i) :
  Terrain3DData_valid st -> Vector2i_valid loc ->
  (exists b, has_region st loc = Some b) /\
  (has_region st loc = Some true <->
   in_region_map loc /\
   exists cell,
     _region_map st !! Z.to_nat (get_region_map_index loc) = Some cell /\
     1 <= cell <= get_region_count st).
Proof.
  intros Hst Hv. unfold has_region.
  destruct (get_region_id_cases st loc Hst Hv)
    as [(Hin & cell & Hcell & Hc & Hget) | (Hout & Hget)]; rewrite Hget;
    cbn [mbind option_bind].
  - split; [eauto |].
    destruct ((1 <=? cell) && (cell <=? get_region_count st)) eqn:E.
    + apply andb_range_true in E.
      destruct (cell - 1 =? -1) eqn:E1; [apply Z.eqb_eq in E1; lia |].
      cbn. split; [| reflexivity]. intros _. split; [exact Hin |]. eauto.
    + cbn. split; [discriminate |].
      intros (_ & cell' & Hcell' & Hr). rewrite Hcell in Hcell'.
      inversion Hcell'; subst cell'. apply andb_range_true in Hr. congruence.
  - split; [eauto |]. cbn. split; [discriminate |].
    intros (Hin & _). contradiction.
Qed.

Lemma has_region_iff_witness :
  (exists b, has_region scenario_data (Vector2i.mk 1 0) = Some b) /\
  (has_region scenario_data (Vector2i.mk 1 0) = Some true <->
   in_region_map (Vector2i.mk 1 0) /\
   exists cell,
     _region_map scenario_data !! Z.to_nat (get_region_map_index (Vector2i.mk 1 0))
       = Some cell /\
     1 <= cell <= get_region_count scenario_data).
Proof.
  apply (has_region_iff scenario_data (Vector2i.mk 1 0)).
  - exact scenario_data_valid.
  - split; unfold int32_range, INT32_MIN, INT32_MAX; cbn; lia.
Defined.

(* ================================================================== *)
(** * From world positions to region ids *)
(* ================================================================== *)

Lemma to_int_range x n : Real.to_int x = Some n -> int32_range n.
Proof.
  destruct x as [s | s | | s m e]; cbn [Real.to_int]; intros H; try discriminate.
  - inversion H. unfold int32_range, INT32_MIN, INT32_MAX. lia.
  - destruct (_ && _) eqn:E; [| discriminate]. inversion H; subst n.
    apply andb_true_iff in E as [E1 E2].
    apply Z.leb_le in E1. apply Z.leb_le in E2. split; assumption.
Qed.

(** A location computed from a position has [int32_t] components. *)
Lemma get_region_location_valid st p loc :
  get_region_location st p = Some loc -> Vector2i_valid loc.
Proof.
  unfold get_region_location, Vector2.to_Vector2i. intros H.
  destruct (Real.to_int (Vector2.x _)) as [xi |] eqn:Ex; [| discriminate].
  cbn [mbind option_bind] in H.
  destruct (Real.to_int (Vector2.y _)) as [yi |] eqn:Ey; [| discriminate].
  cbn [mbind option_bind] in H. inversion H; subst loc.
  split; cbn; eauto using to_int_range.
Qed.

(** X6: for a world position whose region location is defined,
    [get_region_idp] returns -1 or an id below the region count, and -1
    whenever the location is not one of the valid locations, in which
    case [has_regionp] is false; an undefined location leaves
    [get_region_idp] undefined. *)
Theorem get_region_idp_bounded (st : Terrain3DData) (p : Vector3) :
  Terrain3DData_valid st ->
  match get_region_location st p with
  | Some loc =>
      exists id,
        get_region_idp st p = Some id /\
        (id = -1 \/ 0 <= id < get_region_count st) /\
        (~ in_region_map loc -> id = -1 /\ has_regionp st p = Some false)
  | None => get_region_idp st p = None
  end.
Proof.
  intros Hst. unfold has_regionp, get_region_idp.
  destruct (get_region_location st p) as [loc |] eqn:Eloc; [| reflexivity].
  cbn [mbind option_bind].
  pose proof (get_region_location_valid _ _ _ Eloc) as Hv.
  destruct (get_region_id_cases st loc Hst Hv)
    as [(Hin & cell & Hcell & Hc & Hget) | (Hout & Hget)]; rewrite Hget.
  - eexists. split; [reflexivity |]. split; [| intros Hn; contradiction].
    destruct ((1 <=? cell) && (cell <=? get_region_count st)) eqn:E; [| left; reflexivity].
    apply andb_range_true in E. right. lia.
  - exists (-1). split; [reflexivity |]. split; [left; reflexivity |].
    intros _. split; reflexivity.
Qed.

Lemma get_region_idp_bounded_witness :
  exists id,
    get_region_idp scenario_data scenario_position = Some id /\
    (id = -1 \/ 0 <= id < get_region_count scenario_data) /\
    (~ in_region_map (Vector2i.mk 1 0) ->
     id = -1 /\ has_regionp scenario_data scenario_position = Some false).
Proof.
  exact (get_region_idp_bounded scenario_data scenario_position scenario_data_valid).
Defined.

(** X7: while [_region_size] is 0, its initial value, the divisor of
    [get_region_location] is zero or NaN, the quotient is infinite or NaN
    for every world position, and the conversion to [Vector2i] is
    undefined; so is [get_region_idp]. *)
Theorem get_region_location_zero_size (st : Terrain3DData) (p : Vector3) :
  _region_size st = 0 ->
  get_region_location st p = None /\ get_region_idp st p = None.
Proof.
  intros Hsize.
  assert (get_region_location st p = None) as Hloc.
  { unfold get_region_location, Vector2.to_Vector2i, Vector2.floor, Vector2.div.
    cbn [Vector2.x Vector2.y]. rewrite Hsize.
    change (Real.of_int 0) with (S754_zero false).
    assert (forall d x, d = S754_nan \/ (exists s, d = S754_zero s) ->
                        Real.to_int (Real.floor (Real.div x d)) = None) as Hdiv.
    { intros d x [-> | [s ->]]; destruct x as [sx | sx | | sx mx ex]; reflexivity. }
    rewrite (Hdiv _ (Vector3.x p)); [reflexivity |].
    destruct (_mesh_vertex_spacing st) as [s | s | | s m e]; cbn; eauto. }
  split; [exact Hloc |]. unfold get_region_idp. rewrite Hloc. reflexivity.
Qed.

Lemma get_region_location_zero_size_witness :
  get_region_location initial_data scenario_position = None /\
  get_region_idp initial_data scenario_position = None.
Proof. apply get_region_location_zero_size. reflexivity. Defined.

(* ================================================================== *)
(** * More on the master height range *)
(* ================================================================== *)

Lemma leb_ltb_false x y : Real.leb x y = true -> Real.ltb y x = false.
Proof.
  intros H. destruct (leb_numeric _ _ H) as [Hx Hy].
  apply leb_rank in H; [| assumption ..].
  destruct (Real.ltb y x) eqn:E; [| reflexivity].
  apply ltb_rank in E; [| assumption ..].
  unfold lex_lt, lex_le in *.
  destruct (rank x) as [[a1 a2] a3], (rank y) as [[b1 b2] b3]. lia.
Qed.

Lemma gtb_ltb x y : Real.gtb x y = Real.ltb y x.
Proof. reflexivity. Qed.

Lemma ltb_nan_l x : Real.ltb Real.NaN x = false.
Proof. reflexivity. Qed.

Lemma ltb_nan_r x : Real.ltb x Real.NaN = false.
Proof. destruct x as [s | s | | s m e]; reflexivity. Qed.

Lemma isnan_true x : Real.isnan x = true -> x = Real.NaN.
Proof. destruct x; cbn; intros H; try discriminate; reflexivity. Qed.

(** A height inside the range changes nothing. *)
Lemma update_master_height_inside st h :
  range_contains (get_height_range st) h -> update_master_height st h = st.
Proof.
  intros [Hlo Hhi]. unfold update_master_height, get_height_range in *.
  rewrite (leb_ltb_false _ _ Hlo), gtb_ltb, (leb_ltb_false _ _ Hhi). reflexivity.
Qed.

Lemma update_master_height_nan st : update_master_height st Real.NaN = st.
Proof.
  unfold update_master_height. rewrite gtb_ltb, ltb_nan_l, ltb_nan_r. reflexivity.
Qed.

(** X8: a height that lies inside the range leaves the whole state
    unchanged, and on a range whose min is at most its max
    [update_master_height] is idempotent. *)
Theorem update_master_height_idempotent (st : Terrain3DData) (h : real_t) :
  Real.leb (Vector2.x (get_height_range st)) (Vector2.y (get_height_range st)) = true ->
  (range_contains (get_height_range st) h -> update_master_height st h = st) /\
  update_master_height (update_master_height st h) h = update_master_height st h.
Proof.
  intros Hord. split; [apply update_master_height_inside |].
  destruct (Real.isnan h) eqn:Eh.
  - apply isnan_true in Eh. subst h. rewrite !update_master_height_nan. reflexivity.
  - apply update_master_height_inside.
    apply update_master_height_contains; assumption.
Qed.

Lemma update_master_height_idempotent_witness :
  (range_contains (get_height_range initial_data) real_12_5 ->
   update_master_height initial_data real_12_5 = initial_data) /\
  update_master_height (update_master_height initial_data real_12_5) real_12_5
    = update_master_height initial_data real_12_5.
Proof. apply update_master_height_idempotent. reflexivity. Defined.

(** X9: after [update_master_heights] with numbers (low, high) on a range
    of numbers, the min is at most low and the max at least high,
    whether or not the range was ordered before. *)
Theorem update_master_heights_covers (st : Terrain3DData) (lh : Vector2) :
  range_numeric (get_height_range st) -> range_numeric lh ->
  Real.leb (Vector2.x (get_height_range (update_master_heights st lh))) (Vector2.x lh)
    = true /\
  Real.leb (Vector2.y lh) (Vector2.y (get_height_range (update_master_heights st lh)))
    = true.
Proof.
  intros [Hx Hy] [Hl Hh]. rewrite update_master_heights_range. cbn zeta.
  destruct (Real.ltb (Vector2.x lh) _) eqn:E1; cbn [Vector2.x Vector2.y];
    destruct (Real.gtb (Vector2.y lh) _) eqn:E2; cbn [Vector2.x Vector2.y];
    split; auto using leb_refl, ltb_false_leb.
Qed.

Lemma update_master_heights_covers_witness :
  Real.leb (Vector2.x (get_height_range
                         (update_master_heights inverted_data (Vector2.mk real_3 real_3))))
           real_3 = true /\
  Real.leb real_3
           (Vector2.y (get_height_range
                         (update_master_heights inverted_data (Vector2.mk real_3 real_3))))
    = true.
Proof.
  apply (update_master_heights_covers inverted_data (Vector2.mk real_3 real_3));
    split; reflexivity.
Defined.

(** X10: NaN never enters the master height range: an update with NaN
    changes nothing, and from bounds that are numbers every sequence of
    updates, whatever its arguments, ends with bounds that are numbers. *)
Theorem master_height_range_ignores_nan :
  (forall st : Terrain3DData, update_master_height st Real.NaN = st) /\
  (forall st : Terrain3DData,
      update_master_heights st (Vector2.mk Real.NaN Real.NaN) = st) /\
  (forall (st : Terrain3DData) (us : list height_update),
      range_numeric (get_height_range st) ->
      range_numeric (get_height_range (apply_updates st us))).
Proof.
  split; [exact update_master_height_nan |]. split.
  - intros st. unfold update_master_heights. cbn [Vector2.x Vector2.y].
    rewrite gtb_ltb, ltb_nan_l, ltb_nan_r. reflexivity.
  - intros st us Hnum. exact (proj1 (apply_updates_widens us st Hnum)).
Qed.

Lemma master_height_range_ignores_nan_witness :
  range_numeric
    (get_height_range
       (apply_updates initial_data
          [UpdateHeight Real.NaN; UpdateHeights (Vector2.mk Real.NaN real_3);
           UpdateHeight (S754_infinity true)])).
Proof.
  destruct master_height_range_ignores_nan as (_ & _ & Hseq).
  apply Hseq. split; reflexivity.
Defined.

(** X11: on a range whose min is at most its max, the batch update with
    the pair (h, h) is the single update with h; on the inverted range
    (5,1) they differ: with 3 the batch update gives (3,3), the single
    update (3,1). *)
Theorem update_master_heights_single (st : Terrain3DData) (h : real_t) :
  Real.leb (Vector2.x (get_height_range st)) (Vector2.y (get_height_range st)) = true ->
  update_master_heights st (Vector2.mk h h) = update_master_height st h /\
  get_height_range (update_master_heights inverted_data (Vector2.mk real_3 real_3))
    = Vector2.mk real_3 real_3 /\
  get_height_range (update_master_height inverted_data real_3)
    = Vector2.mk real_3 real_1.
Proof.
  intros Hord. split; [| split; reflexivity].
  unfold update_master_heights, update_master_height, get_height_range in *.
  cbn [Vector2.x Vector2.y].
  destruct (Real.ltb h (Vector2.x (_master_height_range st))) eqn:E1.
  - cbn [_master_height_range with_master_height_range Vector2.x Vector2.y].
    assert (Real.gtb h (Vector2.y (_master_height_range st)) = false) as ->.
    { rewrite gtb_ltb. apply leb_ltb_false.
      exact (leb_trans _ _ _ (ltb_leb _ _ E1) Hord). }
    reflexivity.
  - destruct (Real.gtb h (Vector2.y (_master_height_range st))); reflexivity.
Qed.

Lemma update_master_heights_single_witness :
  update_master_heights initial_data (Vector2.mk real_12_5 real_12_5)
    = update_master_height initial_data real_12_5 /\
  get_height_range (update_master_heights inverted_data (Vector2.mk real_3 real_3))
    = Vector2.mk real_3 real_3 /\
  get_height_range (update_master_height inverted_data real_3)
    = Vector2.mk real_3 real_1.
Proof. apply update_master_heights_single. reflexivity. Defined.

(* ================================================================== *)
(** * More on the typed accessors *)
(* ================================================================== *)

Lemma as_float_nan_iff c :
  uint32_range c -> (Real.isnan (as_float c) = true <-> nan_pattern c).
Proof.
  intros Hc. destruct (uint32_fields c Hc) as (Hman & Hex & _ & _).
  unfold as_float, nan_pattern. rewrite Hman, Hex.
  assert (0 <= c mod 2 ^ 23 < 2 ^ 23) as Hmanr by (apply Z.mod_pos_bound; lia).
  set (ex := (c / 2 ^ 23) mod 2 ^ 8) in *.
  set (man := c mod 2 ^ 23) in *.
  destruct (ex =? 0) eqn:E0.
  - apply Z.eqb_eq in E0. destruct man; cbn; split; intros H; try discriminate; lia.
  - destruct (ex =? 255) eqn:E255.
    + apply Z.eqb_eq in E255. destruct (man =? 0) eqn:Em; cbn.
      * apply Z.eqb_eq in Em. split; [discriminate | lia].
      * apply Z.eqb_neq in Em. split; auto.
    + apply Z.eqb_neq in E255.
      destruct (man + 2 ^ 23) eqn:Em; cbn; split; intros H; try discriminate; lia.
Qed.

(** X12: when the control pixel read is the pixel [set_control] writes
    for the value [c], [get_control] returns [c] unless bits 30..23 of
    [c] are all ones and bits 22..0 are not all zero; for those values it
    returns UINT32_MAX.  So the values read back unchanged are the ones
    outside that set, and UINT32_MAX. *)
Theorem get_control_of_set_control (st : Terrain3DData) (p : Vector3) (c : Z) :
  uint32_range c ->
  get_pixel st TYPE_CONTROL p
    = Some (Color.mk (as_float c) Real.zero Real.zero Real.one) ->
  (nan_pattern c -> get_control st p = Some UINT32_MAX) /\
  (~ nan_pattern c -> get_control st p = Some c) /\
  (get_control st p = Some c <-> ~ nan_pattern c \/ c = UINT32_MAX).
Proof.
  intros Hc Hpx. unfold get_control. rewrite Hpx. cbn [mbind option_bind Color.r].
  pose proof (as_float_nan_iff c Hc) as Hnan.
  destruct (Real.isnan (as_float c)) eqn:E.
  - assert (nan_pattern c) as Hp by (apply Hnan; reflexivity).
    split; [reflexivity |]. split; [intros Hn; contradiction |].
    split.
    + intros H. inversion H. right. reflexivity.
    + intros [Hn | ->]; [contradiction | reflexivity].
  - assert (~ nan_pattern c) as Hp.
    { intros Hn. apply Hnan in Hn. discriminate. }
    rewrite (as_uint_as_float c Hc E).
    split; [intros Hn; contradiction |]. split; [reflexivity |].
    split; auto.
Qed.

Lemma get_control_of_set_control_witness :
  (nan_pattern 0x7FFFFFFF -> get_control scenario_control scenario_position = Some UINT32_MAX) /\
  (~ nan_pattern 0x7FFFFFFF ->
   get_control scenario_control scenario_position = Some 0x7FFFFFFF) /\
  (get_control scenario_control scenario_position = Some 0x7FFFFFFF
   <-> ~ nan_pattern 0x7FFFFFFF \/ 0x7FFFFFFF = UINT32_MAX).
Proof.
  apply (get_control_of_set_control scenario_control scenario_position 0x7FFFFFFF).
  - unfold uint32_range, UINT32_MAX. lia.
  - vm_compute. reflexivity.
Defined.



